(** * Inflation tracker: the data engine of [src/app/page.tsx]

    A shallow embedding of the metric calculators ([pctChangeYoY],
    [pctChangeMoM]), the payload parser ([parseBlsSeries]), the chart-row
    aligner ([chartData]) and the acquisition hook ([fetchSeries],
    [useBlsData]), with the properties the specification states about them.

    JavaScript numbers are IEEE 754 binary64 values: they are modelled by
    Rocq's primitive floats, whose operations are the same binary64
    operations.  [null] and [undefined] results are [None]. *)

From Stdlib Require Import ZArith List String Ascii Bool Lia Floats.
From Stdlib Require Import DecimalString.
From Stdlib Require Import Sorting.Sorted Sorting.Permutation.
Import ListNotations.

Set Warnings "-register-all".

(** ** JavaScript arrays and numbers *)

Module Js.

(** [a[i]] for a number [i]: [undefined] outside [0 .. a.length - 1]. *)
Definition index {A : Type} (a : list A) (i : Z) : option A :=
  if (i <? 0)%Z then None else nth_error a (Z.to_nat i).

(** [a.length] *)
Definition len {A : Type} (a : list A) : Z := Z.of_nat (List.length a).

(** ToNumber on a number or [undefined]: [undefined] becomes NaN. *)
Definition to_number (v : option float) : float :=
  match v with
  | Some x => x
  | None => nan
  end.

(** [a.map((x, i) => f(x, i))] *)
Fixpoint mapi_from {A B : Type} (f : A -> Z -> B) (i : Z) (a : list A) : list B :=
  match a with
  | [] => []
  | x :: r => f x i :: mapi_from f (i + 1) r
  end.

Definition mapi {A B : Type} (f : A -> Z -> B) (a : list A) : list B :=
  mapi_from f 0 a.

(** [String(n)] for an integral number [n] of moderate size: its decimal
    digits, with a minus sign below zero. *)
Definition string_of_Z (n : Z) : string := NilZero.string_of_int (Z.to_int n).

(** [s.padStart(2, "0")] *)
Definition padStart2 (s : string) : string :=
  match String.length s with
  | O => "00"
  | S O => "0" ++ s
  | _ => s
  end%string.

(** [s.substr(1)] *)
Definition substr1 (s : string) : string :=
  match s with
  | EmptyString => EmptyString
  | String _ r => r
  end.

End Js.

(** ** Metric calculator (page.tsx, lines 26-39) *)

Module Calc.

(** The argument is an array of numbers, or [null]/[undefined] ([None]);
    an array, even an empty one, is truthy. *)
Definition pctChangeYoY (series : option (list float)) : option float :=
  match series with
  | None => None
  | Some s =>
      if (Js.len s <? 13)%Z then None
      else
        let latest := Js.to_number (Js.index s (Js.len s - 1)) in
        let prevYear := Js.to_number (Js.index s (Js.len s - 13)) in
        Some (((latest - prevYear) / prevYear) * 100)%float
  end.

Definition pctChangeMoM (series : option (list float)) : option float :=
  match series with
  | None => None
  | Some s =>
      if (Js.len s <? 2)%Z then None
      else
        let latest := Js.to_number (Js.index s (Js.len s - 1)) in
        let prev := Js.to_number (Js.index s (Js.len s - 2)) in
        Some (((latest - prev) / prev) * 100)%float
  end.

(** A float that is [+0] or [-0]: what [x === 0] tests. *)
Definition is_zero_denominator (x : float) : Prop :=
  exists sign, Prim2SF x = S754_zero sign.

(** Neither a finite number nor "absent": NaN, [Infinity] or [-Infinity]. *)
Definition nan_or_infinite (x : float) : Prop :=
  is_nan x = true \/ is_infinity x = true.

End Calc.

(** ** Exceptions

    The only exceptions the modelled code can meet before its own [throw]
    are TypeErrors: a property read on [null] or [undefined], a call of
    something that is not a function, a conversion of an object to a string
    that finds no usable method. *)

Module Exn.

Inductive error : Type :=
| TypeError.

Inductive result (A : Type) : Type :=
| Ok (a : A)
| Throw (e : error).

Arguments Ok {A} a.
Arguments Throw {A} e.

Definition bind {A B : Type} (c : result A) (k : A -> result B) : result B :=
  match c with
  | Ok a => k a
  | Throw e => Throw e
  end.

(** [a.map(f)] with a callback that may throw: the first exception ends
    the loop. *)
Fixpoint mapM {A B : Type} (f : A -> result B) (l : list A) : result (list B) :=
  match l with
  | [] => Ok []
  | x :: r =>
      bind (f x) (fun y => bind (mapM f r) (fun ys => Ok (y :: ys)))
  end.

End Exn.

Notation "x <- c ;; k" := (Exn.bind c (fun x => k))
  (at level 61, c at next level, right associativity).

(** ** JSON values

    What [res.json()] resolves to.  An object is the list of its own
    properties, a property being read at its first occurrence; no value is a
    function.  Strings are sequences of code units below 256. *)

Module Json.

Inductive json : Type :=
| Null
| Bool (b : bool)
| Num (x : float)
| Str (s : string)
| Arr (elements : list json)
| Obj (properties : list (string * json)).

Fixpoint assoc (k : string) (o : list (string * json)) : option json :=
  match o with
  | [] => None
  | (k', v) :: r => if String.eqb k k' then Some v else assoc k r
  end.

(** A JavaScript value met by the parser: a JSON value or [undefined]. *)
Definition jsval : Type := option json.

(** [v.name], for a name that no built-in prototype defines ([Results],
    [series], [data], [year], [period], [value]): a TypeError on [null] and
    [undefined], the own property of an object, [undefined] elsewhere. *)
Definition get (v : jsval) (name : string) : Exn.result jsval :=
  match v with
  | None | Some Null => Exn.Throw Exn.TypeError
  | Some (Obj o) => Exn.Ok (assoc name o)
  | Some _ => Exn.Ok None
  end.

(** [v[0]] *)
Definition get0 (v : jsval) : Exn.result jsval :=
  match v with
  | None | Some Null => Exn.Throw Exn.TypeError
  | Some (Arr l) => Exn.Ok (nth_error l 0)
  | Some (Str (String c _)) => Exn.Ok (Some (Str (String c EmptyString)))
  | Some (Obj o) => Exn.Ok (assoc "0" o)
  | Some _ => Exn.Ok None
  end.

(** [v.map(f)]: only an array has a callable [map]. *)
Definition array_map {B : Type} (v : jsval) (f : json -> Exn.result B)
  : Exn.result (list B) :=
  match v with
  | Some (Arr l) => Exn.mapM f l
  | _ => Exn.Throw Exn.TypeError
  end.

(** [v.substr(1)]: only a string has a callable [substr]. *)
Definition substr1 (v : jsval) : Exn.result string :=
  match v with
  | Some (Str s) => Exn.Ok (Js.substr1 s)
  | _ => Exn.Throw Exn.TypeError
  end.

Section ToString.
(** Number::toString, the shortest decimal that reads back as the same
    number: provided by the runtime. *)
Variable Number_toString : float -> string.

(** ToString, as a template literal and [parseFloat] apply it.  An array
    joins its elements with commas, [null] elements giving the empty
    string.  An object without an own [toString] property is
    ["[object Object]"]; with one (never callable here) the conversion
    finds no method that returns a primitive and throws. *)
Fixpoint to_string (v : json) : Exn.result string :=
  match v with
  | Null => Exn.Ok "null"%string
  | Bool true => Exn.Ok "true"%string
  | Bool false => Exn.Ok "false"%string
  | Num x => Exn.Ok (Number_toString x)
  | Str s => Exn.Ok s
  | Arr l =>
      (fix join (l : list json) : Exn.result string :=
         match l with
         | [] => Exn.Ok ""%string
         | x :: r =>
             sx <- match x with
                   | Null => Exn.Ok ""%string
                   | _ => to_string x
                   end ;;
             match r with
             | [] => Exn.Ok sx
             | _ => sr <- join r ;; Exn.Ok (sx ++ "," ++ sr)%string
             end
         end) l
  | Obj o =>
      match assoc "toString" o with
      | Some _ => Exn.Throw Exn.TypeError
      | None => Exn.Ok "[object Object]"%string
      end
  end.

Definition ToString (v : jsval) : Exn.result string :=
  match v with
  | None => Exn.Ok "undefined"%string
  | Some j => to_string j
  end.
End ToString.

End Json.

(** ** Dates

    A [Date] object is its time value: milliseconds since 1970-01-01 UTC, or
    NaN for an Invalid Date ([None]). *)

Module Date.

Local Open Scope Z_scope.

Definition Date : Type := option Z.

Definition msPerDay : Z := 86400000.

(** ECMAScript's day number of the first day of year [y]. *)
Definition DayFromYear (y : Z) : Z :=
  365 * (y - 1970) + (y - 1969) / 4 - (y - 1901) / 100 + (y - 1601) / 400.

Definition InLeapYear (y : Z) : bool :=
  ((y mod 4 =? 0) && negb (y mod 100 =? 0)) || (y mod 400 =? 0).

(** Day within the year of the first day of month [m] (1 to 12). *)
Definition month_start (leap : bool) (m : Z) : Z :=
  let l := if leap then 1 else 0 in
  match m with
  | 1 => 0
  | 2 => 31
  | 3 => 59 + l
  | 4 => 90 + l
  | 5 => 120 + l
  | 6 => 151 + l
  | 7 => 181 + l
  | 8 => 212 + l
  | 9 => 243 + l
  | 10 => 273 + l
  | 11 => 304 + l
  | _ => 334 + l
  end.

Definition DaysInMonth (y m : Z) : Z :=
  match m with
  | 2 => if InLeapYear y then 29 else 28
  | 4 | 6 | 9 | 11 => 30
  | _ => 31
  end.

(** Time value of midnight UTC on day [d] of month [m] of year [y]. *)
Definition UTC (y m d : Z) : Z :=
  (DayFromYear y + month_start (InLeapYear y) m + (d - 1)) * msPerDay.

Definition digit (c : ascii) : option Z :=
  let n := Z.of_nat (nat_of_ascii c) in
  if (48 <=? n) && (n <=? 57) then Some (n - 48) else None.

Definition digits2 (a b : ascii) : option Z :=
  match digit a, digit b with
  | Some x, Some y => Some (10 * x + y)
  | _, _ => None
  end.

Definition digits4 (a b c d : ascii) : option Z :=
  match digits2 a b, digits2 c d with
  | Some x, Some y => Some (100 * x + y)
  | _, _ => None
  end.

(** The date-only form [YYYY-MM-DD] of the Date Time String Format. *)
Definition iso_date_only (s : string) : option (Z * Z * Z) :=
  match s with
  | String y1 (String y2 (String y3 (String y4 (String "-"
      (String m1 (String m2 (String "-"
        (String d1 (String d2 EmptyString))))))))) =>
      match digits4 y1 y2 y3 y4, digits2 m1 m2, digits2 d1 d2 with
      | Some y, Some m, Some d => Some (y, m, d)
      | _, _, _ => None
      end
  | _ => None
  end.

Section Parse.
(** What [Date.parse] answers on a string that is not of the date-only
    form: the other forms of the format, and whatever else the engine
    chooses to recognise. *)
Variable Date_parse_other : string -> Date.

(** [new Date(s)] for a string [s].  A string of the form [YYYY-MM-DD] is
    midnight UTC of that day, and an Invalid Date when its month or day
    is out of bounds. *)
Definition parse (s : string) : Date :=
  match iso_date_only s with
  | Some (y, m, d) =>
      if (1 <=? m) && (m <=? 12) && (1 <=? d) && (d <=? DaysInMonth y m)
      then Some (UTC y m d)
      else None
  | None => Date_parse_other s
  end.
End Parse.

(** [a - b] on two dates: the difference of the time values, NaN when
    either is invalid.  Only its sign is used. *)
Definition sub (a b : Date) : option Z :=
  match a, b with
  | Some x, Some y => Some (x - y)
  | _, _ => None
  end.

(** Civil year of a day number (days since 1970-01-01). *)
Definition year_of_day (day : Z) : Z :=
  let z := day + 719468 in
  let era := z / 146097 in
  let doe := z - era * 146097 in
  let yoe := (doe - doe / 1460 + doe / 36524 - doe / 146096) / 365 in
  let doy := doe - (365 * yoe + yoe / 4 - yoe / 100) in
  let mp := (5 * doy + 2) / 153 in
  yoe + era * 400 + (if mp <? 10 then 0 else 1).

Definition YearFromTime (t : Z) : Z := year_of_day (t / msPerDay).

(** Month of a time value, 0 to 11. *)
Definition MonthFromTime (t : Z) : Z :=
  let y := YearFromTime t in
  let leap := InLeapYear y in
  let d := t / msPerDay - DayFromYear y in
  if d <? month_start leap 2 then 0
  else if d <? month_start leap 3 then 1
  else if d <? month_start leap 4 then 2
  else if d <? month_start leap 5 then 3
  else if d <? month_start leap 6 then 4
  else if d <? month_start leap 7 then 5
  else if d <? month_start leap 8 then 6
  else if d <? month_start leap 9 then 7
  else if d <? month_start leap 10 then 8
  else if d <? month_start leap 11 then 9
  else if d <? month_start leap 12 then 10
  else 11.

Section Local.
(** Offset of local time from UTC, in milliseconds, at a UTC time value. *)
Variable LocalTZA : Z -> Z.

Definition LocalTime (t : Z) : Z := t + LocalTZA t.

(** [d.getFullYear()] and [d.getMonth()]: NaN on an Invalid Date. *)
Definition getFullYear (d : Date) : option Z :=
  option_map (fun t => YearFromTime (LocalTime t)) d.

Definition getMonth (d : Date) : option Z :=
  option_map (fun t => MonthFromTime (LocalTime t)) d.
End Local.

End Date.

(** ** [parseFloat]

    The longest prefix of the trimmed string that is a decimal literal,
    rounded to the nearest binary64 value (ties to even); NaN without such a
    prefix. *)

Module ParseFloat.

Local Open Scope Z_scope.

Definition is_space (c : ascii) : bool :=
  let n := Z.of_nat (nat_of_ascii c) in
  ((9 <=? n) && (n <=? 13)) || (n =? 32) || (n =? 160).

Fixpoint skip_spaces (s : string) : string :=
  match s with
  | String c r => if is_space c then skip_spaces r else s
  | EmptyString => s
  end.

(** The longest prefix of digits, and what follows it. *)
Fixpoint take_digits (s : string) : list Z * string :=
  match s with
  | String c r =>
      match Date.digit c with
      | Some d => let (ds, rest) := take_digits r in (d :: ds, rest)
      | None => ([], s)
      end
  | EmptyString => ([], s)
  end.

Definition digits_value (ds : list Z) : Z :=
  fold_left (fun acc d => 10 * acc + d) ds 0.

(** An exponent part is read only when it is complete. *)
Definition exponent (s : string) : Z :=
  match s with
  | String c r =>
      if (Ascii.eqb c "e" || Ascii.eqb c "E")%bool then
        let (neg, r') :=
          match r with
          | String "-" r' => (true, r')
          | String "+" r' => (false, r')
          | _ => (false, r)
          end in
        match fst (take_digits r') with
        | [] => 0
        | ds => if neg then - digits_value ds else digits_value ds
        end
      else 0
  | EmptyString => 0
  end.

(** The binary64 value nearest to [(-1)^sign * m * 10^e10], for [0 <= m]. *)
Definition decimal (sign : bool) (m e10 : Z) : float :=
  SF2Prim
    match m with
    | Z0 => S754_zero sign
    | Zpos _ =>
        if 0 <=? e10
        then binary_normalize prec emax (cond_Zopp sign (m * 10 ^ e10)) 0 sign
        else
          let '(q, e, loc) :=
            SFdiv_core_binary prec emax m 0 (10 ^ (- e10)) 0 in
          binary_round_aux prec emax sign q e loc
    | Zneg _ => S754_nan
    end.

Definition unsigned (sign : bool) (s : string) : float :=
  if String.prefix "Infinity" s
  then (if sign then neg_infinity else infinity)
  else
    let (ip, r1) := take_digits s in
    let (fp, r2) :=
      match r1 with
      | String "." r => take_digits r
      | _ => ([], r1)
      end in
    match ip ++ fp with
    | [] => nan
    | ds => decimal sign (digits_value ds) (exponent r2 - Js.len fp)
    end.

Definition of_string (s : string) : float :=
  match skip_spaces s with
  | String "-" r => unsigned true r
  | String "+" r => unsigned false r
  | t => unsigned false t
  end.

End ParseFloat.

(** ** Series parser (page.tsx, lines 41-55) *)

Module Parser.

Record Point : Type := mkPoint {
  date : Date.Date;
  value : float
}.

(** The comparator [(a, b) => a.date - b.date]. *)
Definition by_date (a b : Point) : option Z := Date.sub (date a) (date b).

(** [0 < v] for a comparator's answer [v]; a NaN answer counts as [+0]. *)
Definition positive (v : option Z) : bool :=
  match v with
  | Some d => (0 <? d)%Z
  | None => false
  end.

Section Sort.
Variable A : Type.
Variable cmp : A -> A -> option Z.

(** [a.sort(cmp)] as a stable insertion sort: an element moves past
    exactly those for which the comparator answers a positive number.
    ECMAScript fixes the result of [sort] when the comparator is consistent,
    as it is on valid dates: the stable sorted order.  With Invalid Dates
    the comparator answers NaN, the order is the engine's choice, and this
    is one such choice. *)
Fixpoint insert (x : A) (l : list A) : list A :=
  match l with
  | [] => [x]
  | y :: r => if positive (cmp x y) then y :: insert x r else x :: l
  end.

Definition sort (l : list A) : list A := fold_right insert [] l.
End Sort.

Arguments insert {A} cmp x l.
Arguments sort {A} cmp l.

Section Parse.
Variable Number_toString : float -> string.
Variable Date_parse_other : string -> Date.Date.

(** [parseFloat(v)] *)
Definition parseFloat (v : Json.jsval) : Exn.result float :=
  s <- Json.ToString Number_toString v ;;
  Exn.Ok (ParseFloat.of_string s).

(** The callback of [series.data.map]. *)
Definition point_of (d : Json.json) : Exn.result Point :=
  year <- Json.get (Some d) "year" ;;
  ys <- Json.ToString Number_toString year ;;
  period <- Json.get (Some d) "period" ;;
  suffix <- Json.substr1 period ;;
  v <- Json.get (Some d) "value" ;;
  x <- parseFloat v ;;
  Exn.Ok {| date := Date.parse Date_parse_other (ys ++ "-" ++ suffix ++ "-01");
            value := x |}.

(** The body of the [try] block. *)
Definition parseBlsSeries_try (json : Json.json) : Exn.result (list Point) :=
  results <- Json.get (Some json) "Results" ;;
  all_series <- Json.get results "series" ;;
  series <- Json.get0 all_series ;;
  data <- Json.get series "data" ;;
  points <- Json.array_map data point_of ;;
  Exn.Ok (sort by_date points).

Definition parseBlsSeries (json : Json.json) : list Point :=
  match parseBlsSeries_try json with
  | Exn.Ok points => points
  | Exn.Throw _ => []
  end.
End Parse.

End Parser.

(** ** Derived metrics and chart rows (page.tsx, lines 126-152) *)

Module Chart.

Record Data : Type := mkData {
  headlineNSA : list Parser.Point;
  headlineSA : list Parser.Point;
  coreSA : list Parser.Point
}.

Record Metrics : Type := mkMetrics {
  headlineYoY : option float;
  headlineMoM : option float;
  coreYoY : option float;
  coreMoM : option float;
  lastDate : option Date.Date
}.

Record ChartRow : Type := mkChartRow {
  date : string;
  Headline_NSA : float;
  Headline_SA : option float;
  Core_SA : option float
}.

(** [data.series[i]?.value ?? null] *)
Definition value_at (series : list Parser.Point) (i : Z) : option float :=
  option_map Parser.value (Js.index series i).

Definition metrics (data : option Data) : option Metrics :=
  match data with
  | None => None
  | Some d =>
      let hNSA := map Parser.value (headlineNSA d) in
      let hSA := map Parser.value (headlineSA d) in
      let core := map Parser.value (coreSA d) in
      Some {| headlineYoY := Calc.pctChangeYoY (Some hNSA);
              headlineMoM := Calc.pctChangeMoM (Some hSA);
              coreYoY := Calc.pctChangeYoY (Some core);
              coreMoM := Calc.pctChangeMoM (Some core);
              lastDate :=
                option_map Parser.date
                  (Js.index (headlineNSA d) (Js.len (headlineNSA d) - 1)) |}
  end.

(** [String(n)] for a number that is an integer or NaN. *)
Definition string_of_number (n : option Z) : string :=
  match n with
  | Some z => Js.string_of_Z z
  | None => "NaN"
  end.

Section Rows.
Variable LocalTZA : Z -> Z.

Definition label (d : Date.Date) : string :=
  (string_of_number (Date.getFullYear LocalTZA d) ++ "-" ++
   Js.padStart2
     (string_of_number
        (option_map (fun m => (m + 1)%Z) (Date.getMonth LocalTZA d))))%string.

Definition chartData (data : option Data) : list ChartRow :=
  match data with
  | None => []
  | Some d =>
      Js.mapi
        (fun row i =>
           {| date := label (Parser.date row);
              Headline_NSA := Parser.value row;
              Headline_SA := value_at (headlineSA d) i;
              Core_SA := value_at (coreSA d) i |})
        (headlineNSA d)
  end.
End Rows.

End Chart.

(** ** Acquisition (page.tsx, lines 57-98)

    The hook is followed through the events of its life: [Render y], the
    effects of a render with [startYear = y] being flushed (the cleanup of
    the effect in place and a new run of it, when [y] is not the value the
    effect in place ran with); [Unmount], the cleanup alone; and the
    deliveries of the network to the calls of [fetchSeries] in flight.  A delivery and
    the continuations it wakes (the rest of [fetchSeries], [Promise.all],
    the rest of [run]) happen in one step: they are chained microtasks. *)

Module Hook.

Local Open Scope string_scope.

Definition BLS_BASE : string :=
  "https://api.bls.gov/publicAPI/v2/timeseries/data".

Inductive SeriesKey : Type :=
| HEADLINE_NSA
| HEADLINE_SA
| CORE_SA.

Definition SERIES (k : SeriesKey) : string :=
  match k with
  | HEADLINE_NSA => "CUUR0000SA0"
  | HEADLINE_SA => "CUSR0000SA0"
  | CORE_SA => "CUSR0000SA0L1E"
  end.

(** The state the hook returns; [error] is [null] or a message. *)
Record State : Type := mkState {
  loading : bool;
  error : option string;
  data : option Chart.Data
}.

(** A call of [fetchSeries]: suspended at [await fetch(url)], returned the
    promise of [res.json()], or settled. *)
Inductive Call : Type :=
| AwaitingResponse (url : string)
| AwaitingBody
| Fulfilled (json : Json.json)
| Rejected (message : string).

Definition fetchSeries (seriesId : string) (startYear : Z) : Call :=
  AwaitingResponse
    (BLS_BASE ++ "/" ++ seriesId ++ "?startyear=" ++ Js.string_of_Z startYear).

(** What the network delivers to a call: [fetch] rejects, [fetch] resolves
    to a response with a status, the body parses as JSON or fails to. *)
Inductive Delivery : Type :=
| NetworkFault (message : string)
| Response (status : Z)
| Body (json : Json.json)
| BodyFault (message : string).

(** [res.ok] *)
Definition ok (status : Z) : bool := ((200 <=? status) && (status <=? 299))%Z.

(** The call after a delivery; [None] when the delivery is not one the call
    is waiting for. *)
Definition deliver (c : Call) (d : Delivery) : option Call :=
  match c, d with
  | AwaitingResponse _, NetworkFault m => Some (Rejected m)
  | AwaitingResponse _, Response status =>
      if ok status then Some AwaitingBody
      else Some (Rejected ("BLS fetch failed (" ++ Js.string_of_Z status ++ ")"))
  | AwaitingBody, Body j => Some (Fulfilled j)
  | AwaitingBody, BodyFault m => Some (Rejected m)
  | _, _ => None
  end.

(** One run of the effect: its [cancelled] flag, its three calls, and
    whether [Promise.all] has settled. *)
Record Cycle : Type := mkCycle {
  cancelled : bool;
  hNSA : Call;
  hSA : Call;
  coreSA : Call;
  settled : bool
}.

Definition call (k : SeriesKey) (c : Cycle) : Call :=
  match k with
  | HEADLINE_NSA => hNSA c
  | HEADLINE_SA => hSA c
  | CORE_SA => coreSA c
  end.

Definition set_call (k : SeriesKey) (x : Call) (c : Cycle) : Cycle :=
  match k with
  | HEADLINE_NSA => mkCycle (cancelled c) x (hSA c) (coreSA c) (settled c)
  | HEADLINE_SA => mkCycle (cancelled c) (hNSA c) x (coreSA c) (settled c)
  | CORE_SA => mkCycle (cancelled c) (hNSA c) (hSA c) x (settled c)
  end.

Definition settle (c : Cycle) : Cycle :=
  mkCycle (cancelled c) (hNSA c) (hSA c) (coreSA c) true.

(** The cleanup of the effect. *)
Definition cancel (c : Cycle) : Cycle :=
  mkCycle true (hNSA c) (hSA c) (coreSA c) (settled c).

Definition Loading : State := mkState true None None.

Record World : Type := mkWorld {
  state : State;
  deps : option Z;
  cycles : list Cycle
}.

(** Before the first commit: [useState]'s initial value, no effect yet. *)
Definition init : World := mkWorld Loading None [].

Inductive Event : Type :=
| Render (startYear : Z)
| Unmount
| Deliver (cycle : nat) (k : SeriesKey) (d : Delivery).

Fixpoint update {A : Type} (n : nat) (f : A -> A) (l : list A) : list A :=
  match l, n with
  | [], _ => []
  | x :: r, O => f x :: r
  | x :: r, S n' => x :: update n' f r
  end.

(** The cycle started last is the one of the effect in place. *)
Definition latest (w : World) : nat := List.length (cycles w) - 1.

Section Run.
Variable Number_toString : float -> string.
Variable Date_parse_other : string -> Date.Date.

Definition parseBlsSeries : Json.json -> list Parser.Point :=
  Parser.parseBlsSeries Number_toString Date_parse_other.

(** [run] after [await Promise.all(...)] resolved. *)
Definition resolved (c : Cycle) (st : State) (a b d : Json.json) : State :=
  if cancelled c then st
  else
    mkState false None
      (Some (Chart.mkData (parseBlsSeries a) (parseBlsSeries b)
               (parseBlsSeries d))).

(** [run] in its [catch] block. *)
Definition rejected (c : Cycle) (st : State) (message : string) : State :=
  if cancelled c then st else mkState false (Some message) None.

(** A call of cycle [c] became [x]: [Promise.all] rejects at the first
    rejection, resolves when the three calls are fulfilled, and [run]
    goes on from its [await]. *)
Definition wake (c : Cycle) (x : Call) (st : State) : Cycle * State :=
  if settled c then (c, st)
  else
    match x with
    | Rejected m => (settle c, rejected c st m)
    | Fulfilled _ =>
        match hNSA c, hSA c, coreSA c with
        | Fulfilled a, Fulfilled b, Fulfilled d =>
            (settle c, resolved c st a b d)
        | _, _, _ => (c, st)
        end
    | _ => (c, st)
    end.

(** The effect: [run()] sets the loading state and starts the calls. *)
Definition start (startYear : Z) : Cycle :=
  mkCycle false
    (fetchSeries (SERIES HEADLINE_NSA) startYear)
    (fetchSeries (SERIES HEADLINE_SA) startYear)
    (fetchSeries (SERIES CORE_SA) startYear)
    false.

Definition step (w : World) (e : Event) : World :=
  match e with
  | Render y =>
      if match deps w with Some y' => (y =? y')%Z | None => false end
      then w
      else
        mkWorld Loading (Some y)
          (update (latest w) cancel (cycles w) ++ [start y])
  | Unmount => mkWorld (state w) None (update (latest w) cancel (cycles w))
  | Deliver n k d =>
      match nth_error (cycles w) n with
      | None => w
      | Some c =>
          match deliver (call k c) d with
          | None => w
          | Some x =>
              let (c', st) := wake (set_call k x c) x (state w) in
              mkWorld st (deps w) (update n (fun _ => c') (cycles w))
          end
      end
  end.

Definition run (w : World) (es : list Event) : World := fold_left step es w.
End Run.

End Hook.

(** ** The invariant of the acquisition hook *)

Module Inv.

Section Inv.
Variable Number_toString : float -> string.
Variable Date_parse_other : string -> Date.Date.

(** What a cycle has done to the state so far: nothing yet, ... *)
Definition in_flight (st : Hook.State) (c : Hook.Cycle) : Prop :=
  Hook.settled c = false /\
  (forall k m, Hook.call k c <> Hook.Rejected m) /\
  st = Hook.Loading.

(** ... the error of a rejected call, ... *)
Definition failed (st : Hook.State) (c : Hook.Cycle) : Prop :=
  Hook.settled c = true /\
  exists k m,
    Hook.call k c = Hook.Rejected m /\ st = Hook.mkState false (Some m) None.

(** ... or the three parsed series. *)
Definition ready (st : Hook.State) (c : Hook.Cycle) : Prop :=
  Hook.settled c = true /\
  exists a b d,
    Hook.hNSA c = Hook.Fulfilled a /\
    Hook.hSA c = Hook.Fulfilled b /\
    Hook.coreSA c = Hook.Fulfilled d /\
    st = Hook.mkState false None
           (Some (Chart.mkData
                    (Hook.parseBlsSeries Number_toString Date_parse_other a)
                    (Hook.parseBlsSeries Number_toString Date_parse_other b)
                    (Hook.parseBlsSeries Number_toString Date_parse_other d))).

Definition cycle_ok (st : Hook.State) (c : Hook.Cycle) : Prop :=
  Hook.cancelled c = true \/ in_flight st c \/ failed st c \/ ready st c.

(** Every cycle but the last is cancelled, and the state is the last
    cycle's doing unless that one is cancelled too. *)
Definition invariant (w : Hook.World) : Prop :=
  (forall n c,
     nth_error (Hook.cycles w) n = Some c -> n <> Hook.latest w ->
     Hook.cancelled c = true) /\
  (forall c,
     nth_error (Hook.cycles w) (Hook.latest w) = Some c ->
     cycle_ok (Hook.state w) c).
End Inv.

End Inv.

(** ** Payload shapes

    The shapes of payload the specification speaks of, read off the JSON
    value itself. *)

Module Shape.

Import Json.

Definition data_array (series : list (string * json)) : option (list json) :=
  match assoc "data" series with
  | Some (Arr l) => Some l
  | _ => None
  end.

(** The array at [Results.series[0].data], when there is one. *)
Definition series_data (j : json) : option (list json) :=
  match j with
  | Obj o =>
      match assoc "Results" o with
      | Some (Obj r) =>
          match assoc "series" r with
          | Some (Arr (Obj s :: _)) => data_array s
          | Some (Obj ss) =>
              match assoc "0" ss with
              | Some (Obj s) => data_array s
              | _ => None
              end
          | _ => None
          end
      | _ => None
      end
  | _ => None
  end.

Definition is_scalar (j : json) : bool :=
  match j with
  | Arr _ | Obj _ => false
  | _ => true
  end.

(** An object with a string [period]. *)
Definition has_period (d : json) : bool :=
  match d with
  | Obj o =>
      match assoc "period" o with
      | Some (Str _) => true
      | _ => false
      end
  | _ => false
  end.

(** A tuple [{year, period, value}]: [period] is a string, [year] and
    [value] are strings, numbers, booleans or [null]. *)
Definition is_tuple (d : json) : bool :=
  match d with
  | Obj o =>
      match assoc "year" o, assoc "period" o, assoc "value" o with
      | Some y, Some (Str _), Some v => is_scalar y && is_scalar v
      | _, _, _ => false
      end
  | _ => false
  end.

(** The calendar month of a tuple whose [year] is a string of four digits
    and whose [period] is a marker followed by a month of two digits, 01 to
    12. *)
Definition calendar_month (d : json) : option (Z * Z) :=
  match d with
  | Obj o =>
      match assoc "year" o, assoc "period" o with
      | Some (Str (String y1 (String y2 (String y3 (String y4 EmptyString))))),
        Some (Str (String _ (String m1 (String m2 EmptyString)))) =>
          match Date.digits4 y1 y2 y3 y4, Date.digits2 m1 m2 with
          | Some y, Some m =>
              if ((1 <=? m) && (m <=? 12))%Z then Some (y, m) else None
          | _, _ => None
          end
      | _, _ => None
      end
  | _ => None
  end.

(** A well-formed tuple: it names a calendar month and has a scalar
    value. *)
Definition well_formed (d : json) : bool :=
  is_tuple d &&
  match calendar_month d with
  | Some _ => true
  | None => false
  end.

(** Calendar months in chronological order. *)
Definition month_lt (a b : Z * Z) : Prop :=
  (fst a < fst b \/ (fst a = fst b /\ snd a < snd b))%Z.

(** The first day of a calendar month, as a date. *)
Definition month_date (ym : Z * Z) : Date.Date :=
  Some (Date.UTC (fst ym) (snd ym) 1).

(** The calendar month of a tuple, [(0, 1)] where it names none. *)
Definition month (d : json) : Z * Z :=
  match calendar_month d with
  | Some p => p
  | None => (0, 1)%Z
  end.

(** The time value of the first day of a tuple's month. *)
Definition time (d : json) : Z := Date.UTC (fst (month d)) (snd (month d)) 1.

(** Tuples compared by the time values of their months. *)
Definition by_time (a b : json) : option Z := Some (time a - time b)%Z.

Section Points.
Variable Number_toString : float -> string.
Variable Date_parse_other : string -> Date.Date.

(** The point a well-formed tuple stands for: the first day of its
    month, with the value the parser reads. *)
Definition point (d : json) : Parser.Point :=
  Parser.mkPoint (month_date (month d))
    match Parser.point_of Number_toString Date_parse_other d with
    | Exn.Ok p => Parser.value p
    | Exn.Throw _ => nan
    end.
End Points.

End Shape.

(** ** Sample payloads, in the layout of the BLS API *)

Module Sample.

Import Json.

Local Open Scope string_scope.

Definition tuple (year period value : string) : json :=
  Obj [("year", Str year); ("period", Str period); ("value", Str value)].

Definition payload (data : list json) : json :=
  Obj [("status", Str "REQUEST_SUCCEEDED");
       ("Results",
        Obj [("series",
              Arr [Obj [("seriesID", Str "CUUR0000SA0");
                        ("data", Arr data)]])])].

(** A runtime for evaluation: it prints every number as ["0"] and
    recognises no date beyond the date-only form. *)
Definition Number_toString (x : float) : string := "0".
Definition Date_parse_other (s : string) : Date.Date := None.

Definition january : json := payload [tuple "2023" "M01" "299.25"].

(** The first cycle: two calls succeed, the third meets status 503. *)
Definition one_fails : list Hook.Event :=
  [Hook.Render 2015;
   Hook.Deliver 0 Hook.HEADLINE_NSA (Hook.Response 200);
   Hook.Deliver 0 Hook.HEADLINE_SA (Hook.Response 200);
   Hook.Deliver 0 Hook.HEADLINE_NSA (Hook.Body january);
   Hook.Deliver 0 Hook.HEADLINE_SA (Hook.Body january);
   Hook.Deliver 0 Hook.CORE_SA (Hook.Response 503)].

(** The first cycle is one body short of completion. *)
Definition nearly_done : list Hook.Event :=
  [Hook.Render 2015;
   Hook.Deliver 0 Hook.HEADLINE_NSA (Hook.Response 200);
   Hook.Deliver 0 Hook.HEADLINE_SA (Hook.Response 200);
   Hook.Deliver 0 Hook.CORE_SA (Hook.Response 200);
   Hook.Deliver 0 Hook.HEADLINE_NSA (Hook.Body january);
   Hook.Deliver 0 Hook.HEADLINE_SA (Hook.Body january)].

(** ... when the start year changes. *)
Definition superseded : list Hook.Event := nearly_done ++ [Hook.Render 2016].

End Sample.

(** ** Formatting (page.tsx, lines 10-12) *)

Module Fmt.

Local Open Scope string_scope.

(** The placeholder of a missing metric: an en dash, in UTF-8. *)
Definition placeholder : string := "–".

Section Fmt.
(** [x.toFixed(digits)] for a finite [x]: provided by the runtime. *)
Variable toFixed_finite : float -> nat -> string.

(** [x.toFixed(digits)]: a number that is not finite is printed as
    Number::toString prints it. *)
Definition toFixed (x : float) (digits : nat) : string :=
  if is_nan x then "NaN"
  else if is_infinity x then (if (x <? 0)%float then "-Infinity" else "Infinity")
  else toFixed_finite x digits.

(** The argument is a number, or [null]/[undefined] ([None]). *)
Definition fmtPct (x : option float) : string :=
  match x with
  | None => placeholder
  | Some v => if is_nan v then placeholder else toFixed v 1 ++ "%"
  end.

Definition fmt2 (x : option float) : string :=
  match x with
  | None => placeholder
  | Some v => if is_nan v then placeholder else toFixed v 2
  end.
End Fmt.

End Fmt.

(** ** Numbers that are finite and not zero *)

Module Num.

Definition finite_nonzero (x : float) : Prop :=
  exists sign mantissa exponent,
    Prim2SF x = S754_finite sign mantissa exponent.

End Num.

(** ** Countdown (page.tsx, lines 104-118)

    The computation of [useCountdown] from the target date and the current
    time [now], both time values.  Time values are integers; their
    difference and its quotients are exact in binary64 as long as the two
    dates are less than 2^53 milliseconds apart. *)

Module Countdown.

Local Open Scope Z_scope.

Record Countdown : Type := mkCountdown {
  days : option Z;
  hours : option Z;
  minutes : option Z;
  seconds : option Z;
  reached : bool
}.

(** [Math.max(0, target.getTime() - now.getTime())]: NaN for an invalid
    target. *)
Definition diff (target : Date.Date) (now : Z) : option Z :=
  option_map (fun t => Z.max 0 (t - now)) target.

Definition useCountdown (target : Date.Date) (now : Z) : Countdown :=
  let s := option_map (fun d => d / 1000) (diff target now) in
  {| days := option_map (fun s => s / 86400) s;
     hours := option_map (fun s => (s mod 86400) / 3600) s;
     minutes := option_map (fun s => (s mod 3600) / 60) s;
     seconds := option_map (fun s => s mod 60) s;
     reached :=
       match diff target now with
       | Some d => d =? 0
       | None => false
       end |}.

End Countdown.

(** ** The panels of the chart card (page.tsx, lines 271-292) *)

Module View.

(** Truthiness of [error]: [null] and the empty string are falsy. *)
Definition truthy (error : option string) : bool :=
  match error with
  | Some (String _ _) => true
  | _ => false
  end.

Record Panels : Type := mkPanels {
  loading_panel : bool;
  error_panel : bool;
  chart_panel : bool
}.

(** [loading && ...], [error && ...], [!loading && !error && ...] *)
Definition panels (st : Hook.State) : Panels :=
  {| loading_panel := Hook.loading st;
     error_panel := truthy (Hook.error st);
     chart_panel := negb (Hook.loading st) && negb (truthy (Hook.error st)) |}.

End View.

(** ** What [Promise.all] has seen of a cycle *)

Module Join.

Definition all_fulfilled (c : Hook.Cycle) : Prop :=
  exists a b d,
    Hook.hNSA c = Hook.Fulfilled a /\
    Hook.hSA c = Hook.Fulfilled b /\
    Hook.coreSA c = Hook.Fulfilled d.

Definition some_rejected (c : Hook.Cycle) : Prop :=
  exists k m, Hook.call k c = Hook.Rejected m.

(** [Promise.all] is settled exactly when a call is rejected or the three
    are fulfilled. *)
Definition joined (c : Hook.Cycle) : Prop :=
  (Hook.settled c = true -> some_rejected c \/ all_fulfilled c) /\
  (Hook.settled c = false -> ~ some_rejected c /\ ~ all_fulfilled c).

Definition all_joined (w : Hook.World) : Prop :=
  forall n c, nth_error (Hook.cycles w) n = Some c -> joined c.

(** No cycle can change the state any more: each is cancelled or has
    settled. *)
Definition quiet (w : Hook.World) : Prop :=
  forall n c,
    nth_error (Hook.cycles w) n = Some c ->
    Hook.cancelled c = true \/ Hook.settled c = true.

(** The three shapes of the state. *)
Definition shaped (st : Hook.State) : Prop :=
  st = Hook.Loading \/
  (exists m, st = Hook.mkState false (Some m) None) \/
  (exists d, st = Hook.mkState false None (Some d)).

Definition is_delivery (e : Hook.Event) : Prop :=
  match e with
  | Hook.Deliver _ _ _ => True
  | _ => False
  end.

End Join.

(** ** Calendar months before and after *)

Module Month.

Local Open Scope Z_scope.

(** The month before a calendar month. *)
Definition previous (ym : Z * Z) : Z * Z :=
  if snd ym =? 1 then (fst ym - 1, 12) else (fst ym, snd ym - 1).

(** ["YYYY-MM"] as [chartData] writes it. *)
Definition label (ym : Z * Z) : string :=
  (Js.string_of_Z (fst ym) ++ "-" ++ Js.padStart2 (Js.string_of_Z (snd ym)))%string.

End Month.

(** ** Transport failures and successes of a fetch *)

Module Fault.

Local Open Scope Z_scope.


(** A delivery by which a fetch goes on well: a response with a status in
    200-299, or a body that parses. *)
Definition success (d : Hook.Delivery) : Prop :=
  match d with
  | Hook.Response status => 200 <= status <= 299
  | Hook.Body _ => True
  | _ => False
  end.

(** An event that leaves the fetch [k] of cycle [n] alone while the other
    fetches of that cycle succeed: a delivery, which, when it is to cycle
    [n], is a success of another fetch. *)
Definition others_succeed (n : nat) (k : Hook.SeriesKey) (e : Hook.Event) : Prop :=
  match e with
  | Hook.Deliver n' k' d => n' = n -> k' <> k /\ success d
  | _ => False
  end.


End Fault.

(** * Properties *)

(** ** Arrays read from their end *)

Section IndexFacts.
Context {A : Type}.

Lemma len_app_cons (pre post : list A) (x : A) :
  Js.len (pre ++ x :: post) = (Js.len pre + 1 + Js.len post)%Z.
Proof. unfold Js.len. rewrite length_app. simpl. lia. Qed.

(** The element [k] places before the end of [pre ++ x :: post], when
    [post] has [k - 1] elements. *)
Lemma index_from_end (pre post : list A) (x : A) (k : Z) :
  Js.len post = (k - 1)%Z ->
  Js.index (pre ++ x :: post) (Js.len (pre ++ x :: post) - k) = Some x.
Proof.
  intros Hk. rewrite len_app_cons, Hk.
  unfold Js.index, Js.len.
  replace (Z.of_nat (List.length pre) + 1 + (k - 1) - k)%Z
    with (Z.of_nat (List.length pre)) by lia.
  destruct (Z.ltb_spec (Z.of_nat (List.length pre)) 0); [lia|].
  rewrite Nat2Z.id, nth_error_app2 by lia.
  now rewrite Nat.sub_diag.
Qed.

(** A list with at least [k >= 1] elements splits around the element [k]
    places before its end. *)
Lemma split_from_end (l : list A) (k : nat) :
  (1 <= k)%nat -> (k <= List.length l)%nat ->
  exists pre x post,
    l = pre ++ x :: post /\ List.length post = (k - 1)%nat.
Proof.
  intros H1 Hk.
  destruct (nth_error l (List.length l - k)) as [x|] eqn:E.
  - apply nth_error_split in E. destruct E as (pre & post & -> & Hpre).
    exists pre, x, post. split; [reflexivity|].
    rewrite length_app in Hpre, Hk. simpl in Hpre, Hk. lia.
  - apply nth_error_None in E. lia.
Qed.

(** The last element and the one [k] places before the end, [k >= 2]. *)
Lemma split_two_from_end (l : list A) (k : nat) :
  (2 <= k)%nat -> (k <= List.length l)%nat ->
  exists pre x mid y,
    l = pre ++ x :: mid ++ [y] /\ List.length mid = (k - 2)%nat.
Proof.
  intros H2 Hk.
  destruct (split_from_end l k) as (pre & x & post & -> & Hpost);
    [lia | exact Hk |].
  destruct (split_from_end post 1) as (mid & y & tl & -> & Htl);
    [lia | lia |].
  destruct tl; [|discriminate].
  exists pre, x, mid, y. split; [reflexivity|].
  rewrite length_app in Hpost. simpl in Hpost. lia.
Qed.

Lemma index_last (pre : list A) (y : A) :
  Js.index (pre ++ [y]) (Js.len (pre ++ [y]) - 1) = Some y.
Proof. now apply index_from_end. Qed.
End IndexFacts.

(** ** Metric calculator *)

Section CalcFacts.
Local Open Scope float_scope.

Lemma pctChangeYoY_short (values : list float) :
  (List.length values < 13)%nat -> Calc.pctChangeYoY (Some values) = None.
Proof.
  intros H. unfold Calc.pctChangeYoY, Js.len.
  destruct (Z.ltb_spec (Z.of_nat (List.length values)) 13); [reflexivity|lia].
Qed.

Lemma pctChangeYoY_split (pre mid : list float) (prevYear latest : float) :
  List.length mid = 11%nat ->
  Calc.pctChangeYoY (Some (pre ++ prevYear :: mid ++ [latest]))
  = Some (((latest - prevYear) / prevYear) * 100).
Proof.
  intros Hmid. unfold Calc.pctChangeYoY.
  assert (Hlen : Js.len (mid ++ [latest]) = 12%Z).
  { unfold Js.len. rewrite length_app. simpl. lia. }
  rewrite (index_from_end pre (mid ++ [latest]) prevYear 13)
    by (rewrite Hlen; reflexivity).
  replace (pre ++ prevYear :: mid ++ [latest])
    with ((pre ++ prevYear :: mid) ++ [latest])
    by (now rewrite <- app_assoc).
  rewrite index_last.
  replace ((pre ++ prevYear :: mid) ++ [latest])
    with (pre ++ prevYear :: mid ++ [latest])
    by (now rewrite <- app_assoc).
  rewrite len_app_cons, Hlen.
  destruct (Z.ltb_spec (Js.len pre + 1 + 12) 13) as [Hlt|]; [|reflexivity].
  unfold Js.len in Hlt. lia.
Qed.

Lemma pctChangeMoM_short (values : list float) :
  (List.length values < 2)%nat -> Calc.pctChangeMoM (Some values) = None.
Proof.
  intros H. unfold Calc.pctChangeMoM, Js.len.
  destruct (Z.ltb_spec (Z.of_nat (List.length values)) 2); [reflexivity|lia].
Qed.

Lemma pctChangeMoM_split (pre : list float) (prev latest : float) :
  Calc.pctChangeMoM (Some (pre ++ [prev; latest]))
  = Some (((latest - prev) / prev) * 100).
Proof.
  unfold Calc.pctChangeMoM.
  rewrite (index_from_end pre [latest] prev 2) by reflexivity.
  replace (pre ++ [prev; latest]) with ((pre ++ [prev]) ++ [latest])
    by (now rewrite <- app_assoc).
  rewrite index_last.
  replace ((pre ++ [prev]) ++ [latest]) with (pre ++ [prev; latest])
    by (now rewrite <- app_assoc).
  rewrite len_app_cons.
  change (Js.len [latest]) with 1%Z.
  destruct (Z.ltb_spec (Js.len pre + 1 + 1) 2) as [Hlt|]; [|reflexivity].
  unfold Js.len in Hlt. lia.
Qed.

(** The percentage change over a zero denominator is NaN or infinite. *)
Lemma pct_zero_denominator (latest prev : float) :
  Calc.is_zero_denominator prev ->
  Calc.nan_or_infinite (((latest - prev) / prev) * 100).
Proof.
  intros [sz Hz]. unfold Calc.nan_or_infinite, is_nan, is_infinity.
  rewrite !eqb_spec, abs_spec, mul_spec, div_spec, sub_spec, Hz.
  change (Prim2SF 100) with (S754_finite false 7036874417766400 (-46)).
  change (Prim2SF infinity) with (S754_infinity false).
  destruct (Prim2SF latest) as [s| s| |s m e]; destruct sz;
    try destruct s; cbn; auto.
Qed.
End CalcFacts.

(** C1: a series of fewer than 13 values has no year-over-year change
    ([null]); a series of at least 13 values ends with a value [prevYear],
    eleven values and the value [latest], and its year-over-year change is
    exactly [(latest - prevYear) / prevYear * 100]. *)
Theorem pctChangeYoY_spec (values : list float) :
  ((List.length values < 13)%nat -> Calc.pctChangeYoY (Some values) = None) /\
  ((13 <= List.length values)%nat ->
   exists pre prevYear mid latest,
     values = pre ++ prevYear :: mid ++ [latest] /\
     List.length mid = 11%nat /\
     Calc.pctChangeYoY (Some values)
     = Some (((latest - prevYear) / prevYear) * 100)%float).
Proof.
  split.
  - apply pctChangeYoY_short.
  - intros H.
    destruct (split_two_from_end values 13) as (pre & x & mid & y & -> & Hmid);
      [lia | exact H |].
    exists pre, x, mid, y. repeat split; [exact Hmid|].
    now apply pctChangeYoY_split.
Qed.

(** C2: a series of fewer than 2 values has no month-over-month change
    ([null]); a series of at least 2 values ends with the values [prev] and
    [latest], and its month-over-month change is exactly
    [(latest - prev) / prev * 100]. *)
Theorem pctChangeMoM_spec (values : list float) :
  ((List.length values < 2)%nat -> Calc.pctChangeMoM (Some values) = None) /\
  ((2 <= List.length values)%nat ->
   exists pre prev latest,
     values = pre ++ [prev; latest] /\
     Calc.pctChangeMoM (Some values)
     = Some (((latest - prev) / prev) * 100)%float).
Proof.
  split.
  - apply pctChangeMoM_short.
  - intros H.
    destruct (split_two_from_end values 2) as (pre & x & mid & y & -> & Hmid);
      [lia | exact H |].
    destruct mid; [|discriminate].
    exists pre, x, y. split; [reflexivity|].
    apply pctChangeMoM_split.
Qed.

Lemma pctChangeYoY_spec_witness :
  Calc.pctChangeYoY (Some [100; 101; 102]%float) = None /\
  exists pre prevYear mid latest,
    [100; 101; 101; 102; 102; 103; 103; 103; 104; 104; 104; 105; 105]%float
    = pre ++ prevYear :: mid ++ [latest] /\
    List.length mid = 11%nat /\
    Calc.pctChangeYoY
      (Some [100; 101; 101; 102; 102; 103; 103; 103; 104; 104; 104; 105;
             105]%float)
    = Some (((latest - prevYear) / prevYear) * 100)%float.
Proof.
  split.
  - apply (proj1 (pctChangeYoY_spec [100; 101; 102]%float)). simpl. lia.
  - apply (proj2 (pctChangeYoY_spec
      [100; 101; 101; 102; 102; 103; 103; 103; 104; 104; 104; 105;
       105]%float)).
    simpl. lia.
Defined.

Lemma pctChangeMoM_spec_witness :
  Calc.pctChangeMoM (Some [100]%float) = None /\
  exists pre prev latest,
    [100; 104; 105]%float = pre ++ [prev; latest] /\
    Calc.pctChangeMoM (Some [100; 104; 105]%float)
    = Some (((latest - prev) / prev) * 100)%float.
Proof.
  split.
  - apply (proj1 (pctChangeMoM_spec [100]%float)). simpl. lia.
  - apply (proj2 (pctChangeMoM_spec [100; 104; 105]%float)). simpl. lia.
Defined.

(** The scenario of a year of steady 5% inflation. *)
Example pctChangeYoY_five_percent :
  Calc.pctChangeYoY
    (Some [100; 101; 101; 102; 102; 103; 103; 103; 104; 104; 104; 105;
           105]%float)
  = Some 5%float.
Proof. reflexivity. Qed.

(** C3, as stated, fails: with a denominator of exactly zero both
    calculators answer a number, [Infinity] or NaN, and not [null]. *)
Lemma zero_denominator_counterexample :
  Calc.is_zero_denominator 0%float /\
  Calc.pctChangeMoM (Some [0; 1]%float) = Some infinity /\
  Calc.pctChangeYoY (Some [0; 0; 0; 0; 0; 0; 0; 0; 0; 0; 0; 0; 0]%float)
  = Some nan.
Proof.
  split; [|split].
  - exists false. reflexivity.
  - reflexivity.
  - reflexivity.
Qed.

(** C3, amended: when the series is long enough and the denominator (the
    value 13 places before the end for YoY, the value before the last for
    MoM) is exactly zero, the calculator answers a number that is NaN or
    infinite; it does not answer [null]. *)
Theorem zero_denominator_nan_or_infinite
  (pre mid : list float) (denominator latest : float) :
  Calc.is_zero_denominator denominator ->
  (List.length mid = 11%nat ->
   exists r,
     Calc.pctChangeYoY (Some (pre ++ denominator :: mid ++ [latest])) = Some r /\
     Calc.nan_or_infinite r) /\
  (exists r,
     Calc.pctChangeMoM (Some (pre ++ [denominator; latest])) = Some r /\
     Calc.nan_or_infinite r).
Proof.
  intros Hz. split.
  - intros Hmid. eexists. split.
    + now apply pctChangeYoY_split.
    + now apply pct_zero_denominator.
  - eexists. split.
    + apply pctChangeMoM_split.
    + now apply pct_zero_denominator.
Qed.

Lemma zero_denominator_nan_or_infinite_witness :
  (exists r,
     Calc.pctChangeYoY
       (Some ([7] ++ (-0) :: [1; 2; 3; 4; 5; 6; 7; 8; 9; 10; 11] ++ [12])%float)
     = Some r /\ Calc.nan_or_infinite r) /\
  (exists r,
     Calc.pctChangeMoM (Some ([7] ++ [-0; 12])%float) = Some r /\
     Calc.nan_or_infinite r).
Proof.
  destruct (zero_denominator_nan_or_infinite
              [7]%float [1; 2; 3; 4; 5; 6; 7; 8; 9; 10; 11]%float
              (-0)%float 12%float) as [Hy Hm].
  - exists true. reflexivity.
  - split; [apply Hy; reflexivity | exact Hm].
Defined.

(** ** Chart rows *)

Section ChartFacts.
Variable LocalTZA : Z -> Z.

Lemma mapi_from_length {A B : Type} (f : A -> Z -> B) (a : list A) (i : Z) :
  List.length (Js.mapi_from f i a) = List.length a.
Proof.
  revert i. induction a as [|x r IH]; intros i; simpl; [reflexivity|].
  now rewrite IH.
Qed.

Lemma mapi_from_nth {A B : Type} (f : A -> Z -> B) (a : list A) (i : Z) (n : nat) :
  nth_error (Js.mapi_from f i a) n
  = option_map (fun x => f x (i + Z.of_nat n)%Z) (nth_error a n).
Proof.
  revert i n. induction a as [|x r IH]; intros i [|n]; simpl; try reflexivity.
  - now rewrite Z.add_0_r.
  - rewrite IH. destruct (nth_error r n); simpl; [|reflexivity].
    do 2 f_equal. lia.
Qed.

Lemma index_of_nat {A : Type} (a : list A) (n : nat) :
  Js.index a (Z.of_nat n) = nth_error a n.
Proof.
  unfold Js.index. destruct (Z.ltb_spec (Z.of_nat n) 0); [lia|].
  now rewrite Nat2Z.id.
Qed.

Lemma chartData_nth (d : Chart.Data) (n : nat) :
  nth_error (Chart.chartData LocalTZA (Some d)) n
  = option_map
      (fun row =>
         Chart.mkChartRow
           (Chart.label LocalTZA (Parser.date row))
           (Parser.value row)
           (option_map Parser.value (nth_error (Chart.headlineSA d) n))
           (option_map Parser.value (nth_error (Chart.coreSA d) n)))
      (nth_error (Chart.headlineNSA d) n).
Proof.
  unfold Chart.chartData, Js.mapi. rewrite mapi_from_nth.
  destruct (nth_error (Chart.headlineNSA d) n); simpl; [|reflexivity].
  unfold Chart.value_at. now rewrite !index_of_nat.
Qed.
End ChartFacts.

(** C8: the rows are as many as the points of the reference series
    [headlineNSA] (none for an empty reference), and row [n] carries the
    reference point [n] with the values of the points [n] of the auxiliary
    series, whatever the dates of those points. *)
Theorem chartData_positional (LocalTZA : Z -> Z) (d : Chart.Data) :
  List.length (Chart.chartData LocalTZA (Some d))
  = List.length (Chart.headlineNSA d) /\
  (Chart.headlineNSA d = [] -> Chart.chartData LocalTZA (Some d) = []) /\
  forall n row,
    nth_error (Chart.chartData LocalTZA (Some d)) n = Some row ->
    exists p,
      nth_error (Chart.headlineNSA d) n = Some p /\
      Chart.Headline_NSA row = Parser.value p /\
      Chart.Headline_SA row
      = option_map Parser.value (nth_error (Chart.headlineSA d) n) /\
      Chart.Core_SA row
      = option_map Parser.value (nth_error (Chart.coreSA d) n).
Proof.
  split; [|split].
  - apply mapi_from_length.
  - intros H. unfold Chart.chartData. now rewrite H.
  - intros n row H. rewrite chartData_nth in H.
    destruct (nth_error (Chart.headlineNSA d) n) as [p|]; [|discriminate].
    injection H as <-. exists p. repeat split.
Qed.

(** C9: at an index of the reference series where an auxiliary series has
    no point, the row exists and its field for that series is [null]. *)
Theorem chartData_missing_is_null (LocalTZA : Z -> Z) (d : Chart.Data) (n : nat) :
  (n < List.length (Chart.headlineNSA d))%nat ->
  exists row,
    nth_error (Chart.chartData LocalTZA (Some d)) n = Some row /\
    ((List.length (Chart.headlineSA d) <= n)%nat ->
     Chart.Headline_SA row = None) /\
    ((List.length (Chart.coreSA d) <= n)%nat -> Chart.Core_SA row = None).
Proof.
  intros Hn. rewrite chartData_nth.
  destruct (nth_error (Chart.headlineNSA d) n) as [p|] eqn:E.
  - eexists. split; [reflexivity|]. simpl. split; intros H.
    + apply nth_error_None in H. now rewrite H.
    + apply nth_error_None in H. now rewrite H.
  - apply nth_error_None in E. lia.
Qed.

Lemma chartData_missing_is_null_witness :
  exists row,
    nth_error
      (Chart.chartData (fun _ => 0%Z)
         (Some (Chart.mkData
                  (repeat (Parser.mkPoint (Some 0%Z) 300) 13)
                  (repeat (Parser.mkPoint (Some 0%Z) 301) 10)
                  (repeat (Parser.mkPoint (Some 0%Z) 302) 13))))
      12
    = Some row /\
    ((10 <= 12)%nat -> Chart.Headline_SA row = None) /\
    ((13 <= 12)%nat -> Chart.Core_SA row = None).
Proof.
  apply (chartData_missing_is_null (fun _ => 0%Z)
           (Chart.mkData
              (repeat (Parser.mkPoint (Some 0%Z) 300) 13)
              (repeat (Parser.mkPoint (Some 0%Z) 301) 10)
              (repeat (Parser.mkPoint (Some 0%Z) 302) 13))
           12).
  simpl. lia.
Defined.

(** ** Sorting *)

Section SortFacts.
Context {A : Type}.
Variable cmp : A -> A -> option Z.

Lemma insert_perm (x : A) (l : list A) :
  Permutation (x :: l) (Parser.insert cmp x l).
Proof.
  induction l as [|y r IH]; simpl; [reflexivity|].
  destruct (Parser.positive (cmp x y)); [|reflexivity].
  rewrite perm_swap. now constructor.
Qed.

Lemma sort_perm (l : list A) : Permutation l (Parser.sort cmp l).
Proof.
  induction l as [|x r IH]; simpl; [reflexivity|].
  rewrite <- insert_perm. now constructor.
Qed.

Lemma sort_length (l : list A) :
  List.length (Parser.sort cmp l) = List.length l.
Proof. symmetry. apply Permutation_length, sort_perm. Qed.

(** When the comparator is the difference of a key, the result is in
    the order of the keys. *)
Variable key : A -> Z.
Hypothesis cmp_key : forall x y, cmp x y = Some (key x - key y)%Z.

Let le (x y : A) : Prop := (key x <= key y)%Z.

Lemma insert_sorted (x : A) (l : list A) :
  StronglySorted le l -> StronglySorted le (Parser.insert cmp x l).
Proof.
  induction l as [|y r IH]; intros Hs; simpl.
  - repeat constructor.
  - inversion_clear Hs as [|? ? Hr Hy].
    rewrite cmp_key. unfold Parser.positive.
    destruct (Z.ltb_spec 0 (key x - key y)) as [Hlt|Hge].
    + constructor; [now apply IH|].
      apply (Permutation_Forall (insert_perm x r)).
      constructor; [unfold le; lia | exact Hy].
    + constructor; [now constructor|].
      constructor; [unfold le; lia|].
      eapply Forall_impl; [|exact Hy].
      unfold le. intros z Hz. lia.
Qed.

Lemma sort_sorted (l : list A) : StronglySorted le (Parser.sort cmp l).
Proof.
  induction l as [|x r IH]; simpl; [constructor|].
  now apply insert_sorted.
Qed.
End SortFacts.

Section SortMap.
Context {A B : Type}.
Variable cmpA : A -> A -> option Z.
Variable cmpB : B -> B -> option Z.
Variable f : A -> B.
Hypothesis cmp_f : forall x y, cmpB (f x) (f y) = cmpA x y.

Lemma insert_map (x : A) (l : list A) :
  Parser.insert cmpB (f x) (map f l) = map f (Parser.insert cmpA x l).
Proof.
  induction l as [|y r IH]; simpl; [reflexivity|].
  rewrite cmp_f. destruct (Parser.positive (cmpA x y)); simpl; [|reflexivity].
  now rewrite IH.
Qed.

Lemma sort_map (l : list A) :
  Parser.sort cmpB (map f l) = map f (Parser.sort cmpA l).
Proof.
  induction l as [|x r IH]; simpl; [reflexivity|].
  now rewrite IH, insert_map.
Qed.
End SortMap.

(** ** Calendar months and time values *)

Section DateFacts.
Local Open Scope Z_scope.

Lemma DayFromYear_lt (y1 y2 : Z) :
  y1 < y2 -> Date.DayFromYear y1 + 365 <= Date.DayFromYear y2.
Proof. unfold Date.DayFromYear. intros H. Z.div_mod_to_equations. lia. Qed.

Lemma month_cases (m : Z) :
  1 <= m <= 12 ->
  m = 1 \/ m = 2 \/ m = 3 \/ m = 4 \/ m = 5 \/ m = 6 \/
  m = 7 \/ m = 8 \/ m = 9 \/ m = 10 \/ m = 11 \/ m = 12.
Proof. lia. Qed.

Lemma month_start_bounds (leap : bool) (m : Z) :
  1 <= m <= 12 -> 0 <= Date.month_start leap m <= 335.
Proof.
  intros H. apply month_cases in H.
  destruct leap; repeat (destruct H as [-> | H]; [simpl; lia|]);
    subst; simpl; lia.
Qed.

Lemma month_start_lt (leap : bool) (m1 m2 : Z) :
  1 <= m1 -> m1 < m2 -> m2 <= 12 ->
  Date.month_start leap m1 < Date.month_start leap m2.
Proof.
  intros H1 H12 H2.
  assert (Hm1 : 1 <= m1 <= 12) by lia. apply month_cases in Hm1.
  assert (Hm2 : 1 <= m2 <= 12) by lia. apply month_cases in Hm2.
  destruct leap;
    repeat (destruct Hm1 as [-> | Hm1]); subst;
    repeat (destruct Hm2 as [-> | Hm2]); subst; simpl; lia.
Qed.

(** The first days of two months are in the order of the months. *)
Lemma UTC_month_lt (a b : Z * Z) :
  1 <= snd a <= 12 -> 1 <= snd b <= 12 ->
  Shape.month_lt a b ->
  Date.UTC (fst a) (snd a) 1 < Date.UTC (fst b) (snd b) 1.
Proof.
  destruct a as [y1 m1], b as [y2 m2]. unfold Shape.month_lt. simpl.
  intros Ha Hb H. unfold Date.UTC, Date.msPerDay.
  apply Z.mul_lt_mono_pos_r; [lia|].
  destruct H as [Hy | [-> Hm]].
  - pose proof (DayFromYear_lt y1 y2 Hy).
    pose proof (month_start_bounds (Date.InLeapYear y1) m1 Ha).
    pose proof (month_start_bounds (Date.InLeapYear y2) m2 Hb).
    lia.
  - pose proof (month_start_lt (Date.InLeapYear y2) m1 m2).
    lia.
Qed.

Lemma month_lt_total (a b : Z * Z) :
  Shape.month_lt a b \/ a = b \/ Shape.month_lt b a.
Proof.
  destruct a as [y1 m1], b as [y2 m2]. unfold Shape.month_lt. simpl.
  destruct (Z.lt_trichotomy y1 y2) as [H | [-> | H]]; [lia | | lia].
  destruct (Z.lt_trichotomy m1 m2) as [H | [-> | H]]; [lia | | lia].
  right. left. reflexivity.
Qed.

(** [year_of_day] is ECMAScript's year of a day: the year whose first
    day is the last one not after it. *)
Lemma year_of_day_spec (d : Z) :
  Date.DayFromYear (Date.year_of_day d) <= d
  < Date.DayFromYear (Date.year_of_day d + 1).
Proof.
  unfold Date.year_of_day, Date.DayFromYear. cbv zeta.
  match goal with |- context [if ?b then _ else _] => destruct b eqn:E end;
  [apply Z.ltb_lt in E | apply Z.ltb_ge in E].
  all: Z.div_mod_to_equations; lia.
Qed.

Lemma year_of_day_unique (d y : Z) :
  Date.DayFromYear y <= d < Date.DayFromYear (y + 1) ->
  Date.year_of_day d = y.
Proof.
  intros H. pose proof (year_of_day_spec d) as Hs.
  destruct (Z.lt_trichotomy (Date.year_of_day d) y) as [Hlt | [Heq | Hgt]].
  - destruct (Z.eq_dec (Date.year_of_day d + 1) y) as [E|E].
    + rewrite E in Hs. lia.
    + pose proof (DayFromYear_lt (Date.year_of_day d + 1) y). lia.
  - exact Heq.
  - destruct (Z.eq_dec (y + 1) (Date.year_of_day d)) as [E|E].
    + rewrite <- E in Hs. lia.
    + pose proof (DayFromYear_lt (y + 1) (Date.year_of_day d)). lia.
Qed.

Lemma day_of_UTC (y m : Z) :
  Date.UTC y m 1 / Date.msPerDay
  = Date.DayFromYear y + Date.month_start (Date.InLeapYear y) m.
Proof.
  unfold Date.UTC, Date.msPerDay. rewrite Z.add_0_r.
  now rewrite Z.div_mul.
Qed.

(** The first day of a month, read back in UTC, is in that month. *)
Lemma YearFromTime_UTC (y m : Z) :
  1 <= m <= 12 -> Date.YearFromTime (Date.UTC y m 1) = y.
Proof.
  intros Hm. unfold Date.YearFromTime. rewrite day_of_UTC.
  apply year_of_day_unique.
  pose proof (month_start_bounds (Date.InLeapYear y) m Hm).
  pose proof (DayFromYear_lt y (y + 1)). lia.
Qed.

Lemma MonthFromTime_UTC (y m : Z) :
  1 <= m <= 12 -> Date.MonthFromTime (Date.UTC y m 1) = m - 1.
Proof.
  intros Hm. unfold Date.MonthFromTime.
  rewrite YearFromTime_UTC by assumption. rewrite day_of_UTC.
  replace (Date.DayFromYear y + Date.month_start (Date.InLeapYear y) m
           - Date.DayFromYear y)
    with (Date.month_start (Date.InLeapYear y) m) by lia.
  apply month_cases in Hm.
  destruct (Date.InLeapYear y);
    repeat (destruct Hm as [-> | Hm]; [reflexivity|]); subst; reflexivity.
Qed.
End DateFacts.

(** ** Series parser *)

Section MapMFacts.
Context {A B : Type}.
Variable f : A -> Exn.result B.

Lemma mapM_ok (l : list A) :
  Forall (fun x => exists y, f x = Exn.Ok y) l ->
  exists ys, Exn.mapM f l = Exn.Ok ys /\ Forall2 (fun x y => f x = Exn.Ok y) l ys.
Proof.
  induction 1 as [|x r [y Hy] _ [ys [Hys Hall]]]; simpl.
  - exists []. split; [reflexivity|constructor].
  - exists (y :: ys). rewrite Hy, Hys. split; [reflexivity|].
    now constructor.
Qed.

Lemma mapM_throw (l : list A) (x : A) (e : Exn.error) :
  In x l -> f x = Exn.Throw e -> exists e', Exn.mapM f l = Exn.Throw e'.
Proof.
  induction l as [|y r IH]; intros Hin Hx; [contradiction|]. simpl.
  destruct Hin as [-> | Hin].
  - rewrite Hx. now exists e.
  - destruct (f y) as [b|e1]; simpl; [|now exists e1].
    destruct (IH Hin Hx) as [e' ->]. now exists e'.
Qed.

Lemma mapM_map (g : A -> B) (l : list A) :
  Forall (fun x => f x = Exn.Ok (g x)) l -> Exn.mapM f l = Exn.Ok (map g l).
Proof.
  induction 1 as [|x r Hx _ IH]; simpl; [reflexivity|].
  now rewrite Hx, IH.
Qed.
End MapMFacts.

Section ParserFacts.
Variable Number_toString : float -> string.
Variable Date_parse_other : string -> Date.Date.

Local Abbreviation point_of :=
  (Parser.point_of Number_toString Date_parse_other).
Local Abbreviation parseBlsSeries :=
  (Parser.parseBlsSeries Number_toString Date_parse_other).

(** The parser reads the array that [Shape.series_data] finds, and throws
    where it finds none. *)
Lemma try_series_data (json : Json.json) :
  Parser.parseBlsSeries_try Number_toString Date_parse_other json
  = match Shape.series_data json with
    | Some l =>
        points <- Exn.mapM point_of l ;;
        Exn.Ok (Parser.sort Parser.by_date points)
    | None => Exn.Throw Exn.TypeError
    end.
Proof.
  unfold Parser.parseBlsSeries_try, Shape.series_data, Shape.data_array.
  destruct json as [| | | |l|o]; try reflexivity.
  cbn [Json.get Exn.bind].
  destruct (Json.assoc "Results" o) as [[| | | |l|r]|]; try reflexivity.
  cbn [Json.get Exn.bind].
  destruct (Json.assoc "series" r) as [[| | |s|l|ss]|]; try reflexivity.
  - destruct s; reflexivity.
  - destruct l as [|[| | | |l'|s] tl]; try reflexivity.
    cbn [Json.get0 nth_error Json.get Exn.bind].
    destruct (Json.assoc "data" s) as [[]|]; reflexivity.
  - cbn [Json.get0 Exn.bind].
    destruct (Json.assoc "0" ss) as [[| | |s|l|s]|]; try reflexivity.
    cbn [Json.get Exn.bind].
    destruct (Json.assoc "data" s) as [[]|]; reflexivity.
Qed.

Lemma to_string_scalar (j : Json.json) :
  Shape.is_scalar j = true ->
  exists s, Json.to_string Number_toString j = Exn.Ok s.
Proof.
  destruct j as [|[]| | | |]; simpl; intros H; try discriminate; eauto.
Qed.

(** A tuple gives a point, whatever its date and value parse to. *)
Lemma point_of_tuple (d : Json.json) :
  Shape.is_tuple d = true -> exists p, point_of d = Exn.Ok p.
Proof.
  unfold Shape.is_tuple, Parser.point_of, Parser.parseFloat.
  destruct d as [| | | | |o]; try discriminate.
  cbn [Json.get Exn.bind].
  destruct (Json.assoc "year" o) as [y|]; [|discriminate].
  destruct (Json.assoc "period" o) as [[| | |p| |]|]; try discriminate.
  destruct (Json.assoc "value" o) as [v|]; [|discriminate].
  intros H. apply andb_prop in H. destruct H as [Hy Hv].
  destruct (to_string_scalar y Hy) as [sy Hsy].
  destruct (to_string_scalar v Hv) as [sv Hsv].
  cbn [Json.ToString Json.substr1 Exn.bind]. rewrite Hsy, Hsv.
  cbn [Exn.bind]. eauto.
Qed.

(** Anything that is not an object with a string [period] makes the
    callback throw. *)
Lemma point_of_without_period (d : Json.json) :
  Shape.has_period d = false -> point_of d = Exn.Throw Exn.TypeError.
Proof.
  unfold Shape.has_period, Parser.point_of.
  destruct d as [|b|x|s|l|o]; try reflexivity.
  cbn [Json.get Exn.bind]. intros H.
  destruct (Json.ToString Number_toString (Json.assoc "year" o)) as [sy|[]];
    [|reflexivity].
  cbn [Exn.bind].
  destruct (Json.assoc "period" o) as [[| | |p| |]|];
    try reflexivity; discriminate.
Qed.

Lemma DaysInMonth_pos (y m : Z) : (1 <= Date.DaysInMonth y m)%Z.
Proof.
  unfold Date.DaysInMonth.
  destruct m as [|p|p]; try lia.
  repeat (destruct p as [p|p|]; try lia);
    destruct (Date.InLeapYear y); lia.
Qed.

Lemma calendar_month_bounds (d : Json.json) (ym : Z * Z) :
  Shape.calendar_month d = Some ym -> (1 <= snd ym <= 12)%Z.
Proof.
  unfold Shape.calendar_month.
  destruct d as [| | | | |o]; try discriminate.
  destruct (Json.assoc "year" o)
    as [[| | |[|y1 [|y2 [|y3 [|y4 [|]]]]]| |]|]; try discriminate.
  destruct (Json.assoc "period" o)
    as [[| | |[|c [|m1 [|m2 [|]]]]| |]|]; try discriminate.
  destruct (Date.digits4 y1 y2 y3 y4) as [y|]; [|discriminate].
  destruct (Date.digits2 m1 m2) as [m|]; [|discriminate].
  destruct (Z.leb_spec 1 m); destruct (Z.leb_spec m 12); simpl;
    intros Hm; try discriminate.
  injection Hm as <-. simpl. lia.
Qed.

(** A well-formed tuple gives the point dated the first day of its
    calendar month. *)
Lemma point_of_well_formed (d : Json.json) (ym : Z * Z) :
  Shape.is_tuple d = true ->
  Shape.calendar_month d = Some ym ->
  exists x, point_of d = Exn.Ok (Parser.mkPoint (Shape.month_date ym) x).
Proof.
  unfold Shape.is_tuple, Shape.calendar_month, Parser.point_of,
    Parser.parseFloat.
  destruct d as [| | | | |o]; try discriminate.
  cbn [Json.get Exn.bind].
  destruct (Json.assoc "year" o)
    as [[| | |[|y1 [|y2 [|y3 [|y4 [|]]]]]| |]|]; try discriminate.
  destruct (Json.assoc "period" o)
    as [[| | |[|c [|m1 [|m2 [|]]]]| |]|]; try discriminate.
  destruct (Json.assoc "value" o) as [v|]; [|discriminate].
  cbn [Shape.is_scalar andb]. intros Hv.
  destruct (to_string_scalar v Hv) as [sv Hsv].
  destruct (Date.digits4 y1 y2 y3 y4) as [y|] eqn:Ey; [|discriminate].
  destruct (Date.digits2 m1 m2) as [m|] eqn:Em; [|discriminate].
  destruct (Z.leb_spec 1 m) as [H1|]; [|discriminate].
  destruct (Z.leb_spec m 12) as [H12|]; [|discriminate].
  cbn [andb]. intros Hm. injection Hm as <-.
  cbn [Json.ToString Json.to_string Json.substr1 Js.substr1 Exn.bind].
  rewrite Hsv. cbn [Exn.bind].
  eexists. do 2 f_equal.
  unfold Date.parse, Shape.month_date.
  cbn [append Date.iso_date_only]. rewrite Ey, Em.
  change (Date.digits2 "0" "1") with (Some 1%Z).
  cbn [fst snd].
  destruct (Z.leb_spec 1 m); [|lia]. destruct (Z.leb_spec m 12); [|lia].
  pose proof (DaysInMonth_pos y m).
  destruct (Z.leb_spec 1 (Date.DaysInMonth y m)); [|lia].
  reflexivity.
Qed.
End ParserFacts.

Section ParserTheory.
Variable Number_toString : float -> string.
Variable Date_parse_other : string -> Date.Date.

Local Abbreviation point_of :=
  (Parser.point_of Number_toString Date_parse_other).
Local Abbreviation parseBlsSeries :=
  (Parser.parseBlsSeries Number_toString Date_parse_other).

Lemma parse_without_array (json : Json.json) :
  Shape.series_data json = None -> parseBlsSeries json = [].
Proof.
  intros H. unfold Parser.parseBlsSeries.
  now rewrite try_series_data, H.
Qed.

Lemma parse_throwing_element (json : Json.json) (l : list Json.json)
  (d : Json.json) (e : Exn.error) :
  Shape.series_data json = Some l -> In d l -> point_of d = Exn.Throw e ->
  parseBlsSeries json = [].
Proof.
  intros H Hin Hd. unfold Parser.parseBlsSeries.
  rewrite try_series_data, H.
  destruct (mapM_throw point_of l d e Hin Hd) as [e' He'].
  now rewrite He'.
Qed.

Lemma parse_tuples (json : Json.json) (l : list Json.json) :
  Shape.series_data json = Some l ->
  Forall (fun d => Shape.is_tuple d = true) l ->
  exists points,
    Forall2 (fun d p => point_of d = Exn.Ok p) l points /\
    parseBlsSeries json = Parser.sort Parser.by_date points.
Proof.
  intros H Hl. unfold Parser.parseBlsSeries.
  rewrite try_series_data, H.
  destruct (mapM_ok point_of l) as [points [Hm Hall]].
  - eapply Forall_impl; [|exact Hl].
    intros d Hd. now apply point_of_tuple.
  - exists points. rewrite Hm. now split.
Qed.

Local Abbreviation ym := Shape.month.
Local Abbreviation time := Shape.time.
Local Abbreviation by_time := Shape.by_time.
Local Abbreviation point := (Shape.point Number_toString Date_parse_other).

Lemma point_of_point (d : Json.json) :
  Shape.well_formed d = true -> point_of d = Exn.Ok (point d).
Proof.
  unfold Shape.well_formed. intros H. apply andb_prop in H.
  destruct H as [Ht Hm].
  destruct (Shape.calendar_month d) as [p|] eqn:E; [|discriminate].
  destruct (point_of_well_formed Number_toString Date_parse_other d p Ht E)
    as [x Hx].
  unfold Shape.point, Shape.month. now rewrite Hx, E.
Qed.

Lemma ym_bounds (d : Json.json) : (1 <= snd (ym d) <= 12)%Z.
Proof.
  unfold Shape.month. destruct (Shape.calendar_month d) as [p|] eqn:E.
  - now apply calendar_month_bounds with d.
  - simpl. lia.
Qed.

(** In a list ordered by time whose months are pairwise distinct, the
    months are in strictly ascending order. *)
Lemma sorted_months (l : list Json.json) :
  StronglySorted (fun a b => (time a <= time b)%Z) l ->
  NoDup (map ym l) ->
  StronglySorted Shape.month_lt (map ym l).
Proof.
  induction 1 as [|d r Hr IH Hd]; intros Hnd; simpl; [constructor|].
  inversion_clear Hnd as [|? ? Hnotin Hnd'].
  constructor; [now apply IH|].
  apply Forall_forall. intros p Hp.
  apply in_map_iff in Hp. destruct Hp as [z [<- Hz]].
  rewrite Forall_forall in Hd. specialize (Hd z Hz).
  destruct (month_lt_total (ym d) (ym z)) as [Hlt | [Heq | Hgt]].
  - exact Hlt.
  - exfalso. apply Hnotin. rewrite Heq. now apply in_map.
  - apply UTC_month_lt in Hgt; try apply ym_bounds.
    unfold Shape.time in Hd. lia.
Qed.

Lemma parse_well_formed (json : Json.json) (l : list Json.json) :
  Shape.series_data json = Some l ->
  Forall (fun d => Shape.well_formed d = true) l ->
  parseBlsSeries json = map point (Parser.sort by_time l).
Proof.
  intros H Hl. unfold Parser.parseBlsSeries.
  rewrite try_series_data, H.
  rewrite (mapM_map point_of point l).
  - cbn [Exn.bind]. apply sort_map. reflexivity.
  - eapply Forall_impl; [|exact Hl]. apply point_of_point.
Qed.

Lemma parse_sorted_months (json : Json.json) (l : list Json.json) :
  Shape.series_data json = Some l ->
  Forall (fun d => Shape.well_formed d = true) l ->
  NoDup (map Shape.calendar_month l) ->
  exists months,
    Permutation (map Shape.calendar_month l) (map Some months) /\
    StronglySorted Shape.month_lt months /\
    map Parser.date (parseBlsSeries json) = map Shape.month_date months.
Proof.
  intros H Hl Hnd.
  assert (Hym : forall l', Forall (fun d => Shape.well_formed d = true) l' ->
                     map Shape.calendar_month l' = map Some (map ym l')).
  { induction 1 as [|d r Hd _ IH]; simpl; [reflexivity|].
    rewrite IH. f_equal. unfold Shape.month.
    unfold Shape.well_formed in Hd. apply andb_prop in Hd.
    destruct Hd as [_ Hd].
    destruct (Shape.calendar_month d); [reflexivity|discriminate]. }
  pose proof (sort_perm by_time l) as Hperm.
  assert (Hl' : Forall (fun d => Shape.well_formed d = true)
                  (Parser.sort by_time l))
    by (eapply Permutation_Forall; eassumption).
  exists (map ym (Parser.sort by_time l)). split; [|split].
  - rewrite <- (Hym _ Hl'). now apply Permutation_map.
  - apply sorted_months.
    + apply (sort_sorted by_time time). reflexivity.
    + apply (NoDup_map_inv Some). rewrite <- (Hym _ Hl').
      eapply Permutation_NoDup; [|exact Hnd]. now apply Permutation_map.
  - rewrite (parse_well_formed json l H Hl), !map_map. reflexivity.
Qed.
End ParserTheory.

(** C4, as stated, fails: a tuple whose value does not parse, or whose
    date does not, leaves the series non-empty; the point carries NaN or an
    Invalid Date. *)
Lemma parse_fail_soft_counterexample :
  (forall Number_toString Date_parse_other,
     Parser.parseBlsSeries Number_toString Date_parse_other
       (Sample.payload [Sample.tuple "2023" "M01" "n/a"])
     = [Parser.mkPoint (Some 1672531200000%Z) nan]) /\
  (forall Number_toString Date_parse_other,
     Parser.parseBlsSeries Number_toString Date_parse_other
       (Sample.payload [Sample.tuple "2023" "M13" "300.5"])
     = [Parser.mkPoint None 300.5%float]).
Proof. split; intros; reflexivity. Qed.

(** C4, amended: the parser answers a list on every payload (it is a
    total function: the [try] block catches every exception).  The list is
    empty when [Results.series[0].data] is not an array, and when an element
    of that array is not an object with a string [period].  An array of
    tuples, with dates or values that do not parse, gives a series that is
    empty only if the array is. *)
Theorem parse_fail_soft
  (Number_toString : float -> string) (Date_parse_other : string -> Date.Date)
  (json : Json.json) :
  (Shape.series_data json = None ->
   Parser.parseBlsSeries Number_toString Date_parse_other json = []) /\
  (forall l d,
     Shape.series_data json = Some l -> In d l -> Shape.has_period d = false ->
     Parser.parseBlsSeries Number_toString Date_parse_other json = []) /\
  (forall l,
     Shape.series_data json = Some l ->
     Forall (fun d => Shape.is_tuple d = true) l ->
     l <> [] ->
     Parser.parseBlsSeries Number_toString Date_parse_other json <> []).
Proof.
  split; [|split].
  - apply parse_without_array.
  - intros l d H Hin Hd.
    apply (parse_throwing_element Number_toString Date_parse_other
             json l d Exn.TypeError H Hin).
    now apply point_of_without_period.
  - intros l H Hl Hne Hnil.
    destruct (parse_tuples Number_toString Date_parse_other json l H Hl)
      as [points [Hall Hp]].
    apply (f_equal (@List.length _)) in Hp.
    rewrite sort_length, Hnil in Hp.
    apply Forall2_length in Hall.
    destruct l; [now apply Hne|]. simpl in Hp, Hall. lia.
Qed.

Lemma parse_fail_soft_witness :
  Parser.parseBlsSeries Sample.Number_toString Sample.Date_parse_other
    (Json.Obj [("status", Json.Str "REQUEST_NOT_PROCESSED")]%string)
  = [] /\
  Parser.parseBlsSeries Sample.Number_toString Sample.Date_parse_other
    (Sample.payload [Sample.tuple "2023" "M01" "299.1"; Json.Null])
  = [] /\
  Parser.parseBlsSeries Sample.Number_toString Sample.Date_parse_other
    (Sample.payload [Sample.tuple "2023" "M13" "n/a"])
  <> [].
Proof.
  split; [|split].
  - apply (proj1 (parse_fail_soft Sample.Number_toString Sample.Date_parse_other
                    (Json.Obj [("status", Json.Str "REQUEST_NOT_PROCESSED")]%string))).
    reflexivity.
  - apply (proj1 (proj2 (parse_fail_soft Sample.Number_toString
                           Sample.Date_parse_other
                           (Sample.payload
                              [Sample.tuple "2023" "M01" "299.1"; Json.Null])))
             [Sample.tuple "2023" "M01" "299.1"; Json.Null] Json.Null).
    + reflexivity.
    + simpl. auto.
    + reflexivity.
  - apply (proj2 (proj2 (parse_fail_soft Sample.Number_toString
                           Sample.Date_parse_other
                           (Sample.payload [Sample.tuple "2023" "M13" "n/a"])))
             [Sample.tuple "2023" "M13" "n/a"]).
    + reflexivity.
    + repeat constructor.
    + discriminate.
Defined.

(** C5: on a payload whose tuples are well formed and name pairwise
    distinct calendar months, in any order, the dates of the parsed series
    are the first days of those months, in strictly ascending order of
    (year, month). *)
Theorem parse_sorted
  (Number_toString : float -> string) (Date_parse_other : string -> Date.Date)
  (json : Json.json) (l : list Json.json) :
  Shape.series_data json = Some l ->
  Forall (fun d => Shape.well_formed d = true) l ->
  NoDup (map Shape.calendar_month l) ->
  exists months,
    Permutation (map Shape.calendar_month l) (map Some months) /\
    StronglySorted Shape.month_lt months /\
    map Parser.date (Parser.parseBlsSeries Number_toString Date_parse_other json)
    = map Shape.month_date months.
Proof. apply parse_sorted_months. Qed.

Lemma parse_sorted_witness :
  exists months,
    Permutation
      (map Shape.calendar_month
         [Sample.tuple "2023" "M03" "301.8"; Sample.tuple "2023" "M01" "299.1";
          Sample.tuple "2022" "M12" "296.7"])
      (map Some months) /\
    StronglySorted Shape.month_lt months /\
    map Parser.date
      (Parser.parseBlsSeries Sample.Number_toString Sample.Date_parse_other
         (Sample.payload
            [Sample.tuple "2023" "M03" "301.8"; Sample.tuple "2023" "M01" "299.1";
             Sample.tuple "2022" "M12" "296.7"]))
    = map Shape.month_date months.
Proof.
  apply (parse_sorted Sample.Number_toString Sample.Date_parse_other).
  - reflexivity.
  - repeat constructor.
  - repeat constructor; simpl; intuition discriminate.
Defined.

(** The series of the scenario above, evaluated. *)
Example parse_sorted_example :
  Parser.parseBlsSeries Sample.Number_toString Sample.Date_parse_other
    (Sample.payload
       [Sample.tuple "2023" "M03" "301.5"; Sample.tuple "2023" "M01" "299.25";
        Sample.tuple "2022" "M12" "296.75"])
  = [Parser.mkPoint (Some 1669852800000%Z) 296.75;
     Parser.mkPoint (Some 1672531200000%Z) 299.25;
     Parser.mkPoint (Some 1677628800000%Z) 301.5].
Proof. reflexivity. Qed.

(** C10: when [Results.series[0].data] is an array of [n] tuples, the
    parsed series has exactly [n] points: the points the tuples give one by
    one, reordered; none is dropped, whatever its date and value parse to. *)
Theorem parse_keeps_every_tuple
  (Number_toString : float -> string) (Date_parse_other : string -> Date.Date)
  (json : Json.json) (l : list Json.json) :
  Shape.series_data json = Some l ->
  Forall (fun d => Shape.is_tuple d = true) l ->
  exists points,
    Forall2
      (fun d p =>
         Parser.point_of Number_toString Date_parse_other d = Exn.Ok p)
      l points /\
    Permutation points
      (Parser.parseBlsSeries Number_toString Date_parse_other json) /\
    List.length (Parser.parseBlsSeries Number_toString Date_parse_other json)
    = List.length l.
Proof.
  intros H Hl.
  destruct (parse_tuples Number_toString Date_parse_other json l H Hl)
    as [points [Hall Hp]].
  exists points. rewrite Hp. split; [exact Hall|]. split.
  - apply sort_perm.
  - rewrite sort_length. symmetry. now apply Forall2_length in Hall.
Qed.

Lemma parse_keeps_every_tuple_witness :
  exists points,
    Forall2
      (fun d p =>
         Parser.point_of Sample.Number_toString Sample.Date_parse_other d
         = Exn.Ok p)
      [Sample.tuple "2023" "M01" "299.1"; Sample.tuple "2022" "M13" "292.6";
       Sample.tuple "2022" "M12" "-"]
      points /\
    Permutation points
      (Parser.parseBlsSeries Sample.Number_toString Sample.Date_parse_other
         (Sample.payload
            [Sample.tuple "2023" "M01" "299.1"; Sample.tuple "2022" "M13" "292.6";
             Sample.tuple "2022" "M12" "-"])) /\
    List.length
      (Parser.parseBlsSeries Sample.Number_toString Sample.Date_parse_other
         (Sample.payload
            [Sample.tuple "2023" "M01" "299.1"; Sample.tuple "2022" "M13" "292.6";
             Sample.tuple "2022" "M12" "-"]))
    = List.length
        [Sample.tuple "2023" "M01" "299.1"; Sample.tuple "2022" "M13" "292.6";
         Sample.tuple "2022" "M12" "-"].
Proof.
  apply (parse_keeps_every_tuple Sample.Number_toString Sample.Date_parse_other).
  - reflexivity.
  - repeat constructor.
Defined.

(** The annual average and the value that is no number stay in the series.
    The order shown is the one of [Parser.sort]; around an Invalid Date an
    engine may order the points differently. *)
Example parse_keeps_every_tuple_example :
  Parser.parseBlsSeries Sample.Number_toString Sample.Date_parse_other
    (Sample.payload
       [Sample.tuple "2023" "M01" "299.25"; Sample.tuple "2022" "M13" "292.5";
        Sample.tuple "2022" "M12" "-"])
  = [Parser.mkPoint (Some 1672531200000%Z) 299.25;
     Parser.mkPoint None 292.5;
     Parser.mkPoint (Some 1669852800000%Z) nan].
Proof. reflexivity. Qed.

(** ** Acquisition *)

Section UpdateFacts.
Context {A : Type}.

Lemma update_length (n : nat) (f : A -> A) (l : list A) :
  List.length (Hook.update n f l) = List.length l.
Proof.
  revert n. induction l as [|x r IH]; intros [|n]; simpl; auto.
Qed.

Lemma update_nth_same (n : nat) (f : A -> A) (l : list A) :
  nth_error (Hook.update n f l) n = option_map f (nth_error l n).
Proof.
  revert n. induction l as [|x r IH]; intros [|n]; simpl; auto.
Qed.

Lemma update_nth_other (n m : nat) (f : A -> A) (l : list A) :
  n <> m -> nth_error (Hook.update n f l) m = nth_error l m.
Proof.
  revert n m. induction l as [|x r IH]; intros [|n] [|m] H; simpl; auto.
  congruence.
Qed.
End UpdateFacts.

Section HookFacts.
Variable Number_toString : float -> string.
Variable Date_parse_other : string -> Date.Date.

Local Abbreviation step := (Hook.step Number_toString Date_parse_other).
Local Abbreviation run := (Hook.run Number_toString Date_parse_other).
Local Abbreviation wake := (Hook.wake Number_toString Date_parse_other).
Local Abbreviation cycle_ok :=
  (Inv.cycle_ok Number_toString Date_parse_other).
Local Abbreviation invariant :=
  (Inv.invariant Number_toString Date_parse_other).

Lemma call_set_same (k : Hook.SeriesKey) (x : Hook.Call) (c : Hook.Cycle) :
  Hook.call k (Hook.set_call k x c) = x.
Proof. now destruct k. Qed.

Lemma call_set_other (k k' : Hook.SeriesKey) (x : Hook.Call) (c : Hook.Cycle) :
  k <> k' -> Hook.call k' (Hook.set_call k x c) = Hook.call k' c.
Proof. destruct k, k'; simpl; congruence. Qed.

Lemma key_eq_dec (k k' : Hook.SeriesKey) : {k = k'} + {k <> k'}.
Proof. decide equality. Qed.

(** A settled call takes no delivery. *)
Lemma deliver_settled (c : Hook.Call) (d : Hook.Delivery) (x : Hook.Call) :
  Hook.deliver c d = Some x ->
  (forall j, c <> Hook.Fulfilled j) /\ (forall m, c <> Hook.Rejected m).
Proof. destruct c, d; simpl; intros H; try discriminate; split; congruence. Qed.

(** A delivery leaves a call waiting, fulfilled or rejected, never back
    at its start. *)
Lemma deliver_result (c : Hook.Call) (d : Hook.Delivery) (x : Hook.Call) :
  Hook.deliver c d = Some x -> forall url, x <> Hook.AwaitingResponse url.
Proof.
  destruct c, d; simpl; intros H; try discriminate.
  - injection H as <-. congruence.
  - destruct (Hook.ok status); injection H as <-; congruence.
  - injection H as <-. congruence.
  - injection H as <-. congruence.
Qed.

(** The message of a rejection is the network's, or names the status. *)
Lemma deliver_rejected (c : Hook.Call) (d : Hook.Delivery) (m : string) :
  Hook.deliver c d = Some (Hook.Rejected m) ->
  d = Hook.NetworkFault m \/ d = Hook.BodyFault m \/
  exists status,
    d = Hook.Response status /\ Hook.ok status = false /\
    m = ("BLS fetch failed (" ++ Js.string_of_Z status ++ ")")%string.
Proof.
  destruct c, d; simpl; intros H; try discriminate.
  - injection H as <-. now left.
  - destruct (Hook.ok status) eqn:E; [discriminate|].
    injection H as <-. right. right. now exists status.
  - injection H as <-. right. now left.
Qed.

(** [run] of a cancelled cycle leaves the state alone. *)
Lemma wake_cancelled (c : Hook.Cycle) (x : Hook.Call) (st : Hook.State) :
  Hook.cancelled c = true ->
  snd (wake c x st) = st /\ Hook.cancelled (fst (wake c x st)) = true.
Proof.
  intros Hc. unfold Hook.wake, Hook.rejected, Hook.resolved.
  destruct (Hook.settled c); [now split|].
  destruct x; simpl; try (now split).
  - destruct (Hook.hNSA c), (Hook.hSA c), (Hook.coreSA c); simpl;
      rewrite ?Hc; now split.
  - rewrite Hc. now split.
Qed.

Lemma wake_keeps_cancelled (c : Hook.Cycle) (x : Hook.Call) (st : Hook.State) :
  Hook.cancelled (fst (wake c x st)) = Hook.cancelled c.
Proof.
  unfold Hook.wake. destruct (Hook.settled c); [reflexivity|].
  destruct x; try reflexivity.
  destruct (Hook.hNSA c), (Hook.hSA c), (Hook.coreSA c); reflexivity.
Qed.

(** A delivery to a cycle that is in order leaves it in order. *)
Lemma wake_ok (c : Hook.Cycle) (k : Hook.SeriesKey) (d : Hook.Delivery)
  (x : Hook.Call) (st : Hook.State) :
  cycle_ok st c ->
  Hook.deliver (Hook.call k c) d = Some x ->
  cycle_ok (snd (wake (Hook.set_call k x c) x st))
    (fst (wake (Hook.set_call k x c) x st)).
Proof.
  intros Hok Hd.
  destruct (deliver_settled _ _ _ Hd) as [Hnf Hnr].
  pose proof (deliver_result _ _ _ Hd) as Hx.
  destruct Hok as [Hc | [Hfl | [Hfa | Hre]]].
  - left. rewrite wake_keeps_cancelled. now destruct k.
  - destruct Hfl as (Hs & Hno & ->).
    assert (Hs' : Hook.settled (Hook.set_call k x c) = false)
      by (now destruct k).
    unfold Hook.wake. rewrite Hs'.
    destruct x as [url| |j|m].
    + now destruct (Hx url).
    + cbn [fst snd]. right. left. repeat split; [exact Hs'|].
      intros k' m. destruct (key_eq_dec k k') as [<-|Hne].
      * rewrite call_set_same. discriminate.
      * rewrite call_set_other by assumption. apply Hno.
    + destruct (Hook.hNSA (Hook.set_call k (Hook.Fulfilled j) c)) eqn:E1;
        try (cbn [fst snd]; right; left; repeat split; [exact Hs'|];
             intros k' m; destruct (key_eq_dec k k') as [<-|Hne];
             [rewrite call_set_same; discriminate
             |rewrite call_set_other by assumption; apply Hno]).
      destruct (Hook.hSA (Hook.set_call k (Hook.Fulfilled j) c)) eqn:E2;
        try (cbn [fst snd]; right; left; repeat split; [exact Hs'|];
             intros k' m; destruct (key_eq_dec k k') as [<-|Hne];
             [rewrite call_set_same; discriminate
             |rewrite call_set_other by assumption; apply Hno]).
      destruct (Hook.coreSA (Hook.set_call k (Hook.Fulfilled j) c)) eqn:E3;
        try (cbn [fst snd]; right; left; repeat split; [exact Hs'|];
             intros k' m; destruct (key_eq_dec k k') as [<-|Hne];
             [rewrite call_set_same; discriminate
             |rewrite call_set_other by assumption; apply Hno]).
      cbn [fst snd]. unfold Hook.resolved.
      destruct (Hook.cancelled (Hook.set_call k (Hook.Fulfilled j) c)) eqn:Ec.
      * left. exact Ec.
      * right. right. right. split; [reflexivity|].
        exists json, json0, json1. cbn [Hook.settle Hook.hNSA Hook.hSA Hook.coreSA].
        now repeat split.
    + cbn [fst snd]. unfold Hook.rejected.
      destruct (Hook.cancelled (Hook.set_call k (Hook.Rejected m) c)) eqn:Ec.
      * left. exact Ec.
      * right. right. left. split; [reflexivity|].
        exists k, m. split; [|reflexivity].
        now destruct k.
  - destruct Hfa as (Hs & k0 & m & Hk0 & ->).
    assert (Hs' : Hook.settled (Hook.set_call k x c) = true)
      by (now destruct k).
    unfold Hook.wake. rewrite Hs'. cbn [fst snd].
    right. right. left. split; [exact Hs'|].
    exists k0, m. split; [|reflexivity].
    destruct (key_eq_dec k k0) as [<-|Hne].
    + now destruct (Hnr m).
    + now rewrite call_set_other.
  - destruct Hre as (Hs & a & b & d' & Ha & Hb & Hd' & ->).
    destruct k; simpl in Hnf.
    + now destruct (Hnf a).
    + now destruct (Hnf b).
    + now destruct (Hnf d').
Qed.
End HookFacts.

Section HookTheory.
Variable Number_toString : float -> string.
Variable Date_parse_other : string -> Date.Date.

Local Abbreviation step := (Hook.step Number_toString Date_parse_other).
Local Abbreviation run := (Hook.run Number_toString Date_parse_other).
Local Abbreviation wake := (Hook.wake Number_toString Date_parse_other).
Local Abbreviation cycle_ok :=
  (Inv.cycle_ok Number_toString Date_parse_other).
Local Abbreviation invariant :=
  (Inv.invariant Number_toString Date_parse_other).

Lemma invariant_init : invariant Hook.init.
Proof.
  split.
  - intros [|n] c H; discriminate.
  - intros c H. discriminate.
Qed.

Lemma start_in_flight (y : Z) : cycle_ok Hook.Loading (Hook.start y).
Proof.
  right. left. repeat split. intros [] m; discriminate.
Qed.

Lemma invariant_render (w : Hook.World) (y : Z) :
  invariant w -> invariant (step w (Hook.Render y)).
Proof.
  intros [Hold Hlast]. unfold Hook.step.
  destruct (match Hook.deps w with
            | Some y' => (y =? y')%Z
            | None => false
            end); [now split|].
  assert (Hlen : Hook.latest
                   (Hook.mkWorld Hook.Loading (Some y)
                      (Hook.update (Hook.latest w) Hook.cancel (Hook.cycles w)
                       ++ [Hook.start y]))
                 = List.length (Hook.cycles w)).
  { unfold Hook.latest at 1. cbn [Hook.cycles].
    rewrite length_app, update_length. simpl. lia. }
  split; rewrite Hlen; cbn [Hook.cycles Hook.state].
  - intros n c Hn Hne.
    assert (Hlt : (n < List.length (Hook.cycles w))%nat).
    { assert (Hsome : nth_error
                          (Hook.update (Hook.latest w) Hook.cancel (Hook.cycles w)
                           ++ [Hook.start y]) n <> None) by congruence.
      apply nth_error_Some in Hsome.
      rewrite length_app, update_length in Hsome. simpl in Hsome. lia. }
    rewrite nth_error_app1 in Hn by (now rewrite update_length).
    destruct (Nat.eq_dec (Hook.latest w) n) as [<-|Hn'].
    + rewrite update_nth_same in Hn.
      destruct (nth_error (Hook.cycles w) (Hook.latest w)); [|discriminate].
      now injection Hn as <-.
    + rewrite update_nth_other in Hn by assumption.
      apply (Hold n c Hn). congruence.
  - intros c Hc.
    rewrite nth_error_app2 in Hc by (rewrite update_length; lia).
    rewrite update_length, Nat.sub_diag in Hc. injection Hc as <-.
    apply start_in_flight.
Qed.

Lemma invariant_unmount (w : Hook.World) :
  invariant w -> invariant (step w Hook.Unmount).
Proof.
  intros [Hold Hlast].
  assert (Hlen : Hook.latest (step w Hook.Unmount) = Hook.latest w).
  { unfold Hook.latest, Hook.step. cbn [Hook.cycles].
    now rewrite update_length. }
  split; rewrite Hlen; unfold Hook.step; cbn [Hook.cycles Hook.state].
  - intros n c Hn Hne. rewrite update_nth_other in Hn by congruence.
    now apply (Hold n c).
  - intros c Hc. rewrite update_nth_same in Hc.
    destruct (nth_error (Hook.cycles w) (Hook.latest w)); [|discriminate].
    injection Hc as <-. now left.
Qed.

Lemma invariant_deliver (w : Hook.World) (n : nat) (k : Hook.SeriesKey)
  (d : Hook.Delivery) :
  invariant w -> invariant (step w (Hook.Deliver n k d)).
Proof.
  intros Hinv. pose proof Hinv as [Hold Hlast]. unfold Hook.step.
  destruct (nth_error (Hook.cycles w) n) as [c|] eqn:En; [|exact Hinv].
  destruct (Hook.deliver (Hook.call k c) d) as [x|] eqn:Ed; [|exact Hinv].
  destruct (wake (Hook.set_call k x c) x (Hook.state w)) as [c' st] eqn:Ew.
  assert (Hc' : c' = fst (wake (Hook.set_call k x c) x (Hook.state w)))
    by (now rewrite Ew).
  assert (Hst : st = snd (wake (Hook.set_call k x c) x (Hook.state w)))
    by (now rewrite Ew).
  assert (Hlen : Hook.latest
                   (Hook.mkWorld st (Hook.deps w)
                      (Hook.update n (fun _ => c') (Hook.cycles w)))
                 = Hook.latest w).
  { unfold Hook.latest. cbn [Hook.cycles]. now rewrite update_length. }
  split; rewrite Hlen; cbn [Hook.cycles Hook.state].
  - intros m c1 Hm Hne.
    destruct (Nat.eq_dec n m) as [<-|Hnm].
    + rewrite update_nth_same, En in Hm. injection Hm as <-.
      rewrite Hc', wake_keeps_cancelled.
      replace (Hook.cancelled (Hook.set_call k x c)) with (Hook.cancelled c)
        by (now destruct k).
      now apply (Hold n c).
    + rewrite update_nth_other in Hm by assumption.
      now apply (Hold m c1).
  - intros c1 Hc1.
    destruct (Nat.eq_dec n (Hook.latest w)) as [Heq|Hne].
    + rewrite <- Heq, update_nth_same, En in Hc1. injection Hc1 as <-.
      rewrite Hc', Hst. apply wake_ok with d; [|exact Ed].
      apply Hlast. now rewrite <- Heq.
    + rewrite update_nth_other in Hc1 by assumption.
      assert (Hcan : Hook.cancelled (Hook.set_call k x c) = true).
      { replace (Hook.cancelled (Hook.set_call k x c))
          with (Hook.cancelled c) by (now destruct k).
        now apply (Hold n c). }
      destruct (wake_cancelled Number_toString Date_parse_other
                  (Hook.set_call k x c) x (Hook.state w) Hcan) as [Hsame _].
      rewrite Hst, Hsame. now apply Hlast.
Qed.

Lemma invariant_step (w : Hook.World) (e : Hook.Event) :
  invariant w -> invariant (step w e).
Proof.
  destruct e as [y| |n k d].
  - apply invariant_render.
  - apply invariant_unmount.
  - apply invariant_deliver.
Qed.

Lemma invariant_run (es : list Hook.Event) (w : Hook.World) :
  invariant w -> invariant (run w es).
Proof.
  revert w. induction es as [|e es IH]; intros w Hw; [exact Hw|].
  simpl. apply IH. now apply invariant_step.
Qed.

(** A delivery to a cancelled cycle leaves the state as it is. *)
Lemma deliver_cancelled (w : Hook.World) (n : nat) (k : Hook.SeriesKey)
  (d : Hook.Delivery) :
  (forall c, nth_error (Hook.cycles w) n = Some c -> Hook.cancelled c = true) ->
  Hook.state (step w (Hook.Deliver n k d)) = Hook.state w.
Proof.
  intros Hcan. unfold Hook.step.
  destruct (nth_error (Hook.cycles w) n) as [c|]; [|reflexivity].
  destruct (Hook.deliver (Hook.call k c) d) as [x|]; [|reflexivity].
  assert (Hc : Hook.cancelled (Hook.set_call k x c) = true).
  { replace (Hook.cancelled (Hook.set_call k x c))
      with (Hook.cancelled c) by (now destruct k).
    now apply Hcan. }
  destruct (wake_cancelled Number_toString Date_parse_other
              (Hook.set_call k x c) x (Hook.state w) Hc) as [Hsame _].
  destruct (wake (Hook.set_call k x c) x (Hook.state w)) as [c' st].
  exact Hsame.
Qed.
End HookTheory.

(** While a cycle is the one in place and one of its calls is rejected,
    the state is the error state with the message of a rejected call of
    that cycle; the message of a rejection is the fault's own, or
    ["BLS fetch failed (status)"]. *)
Lemma rejected_call_gives_error
  (Number_toString : float -> string) (Date_parse_other : string -> Date.Date)
  (es : list Hook.Event) (c : Hook.Cycle) (k : Hook.SeriesKey) (m : string) :
  nth_error
    (Hook.cycles (Hook.run Number_toString Date_parse_other Hook.init es))
    (Hook.latest (Hook.run Number_toString Date_parse_other Hook.init es))
  = Some c ->
  Hook.cancelled c = false ->
  Hook.call k c = Hook.Rejected m ->
  (exists k' m',
     Hook.call k' c = Hook.Rejected m' /\
     Hook.state (Hook.run Number_toString Date_parse_other Hook.init es)
     = Hook.mkState false (Some m') None) /\
  (forall call d m',
     Hook.deliver call d = Some (Hook.Rejected m') ->
     d = Hook.NetworkFault m' \/ d = Hook.BodyFault m' \/
     exists status,
       d = Hook.Response status /\ Hook.ok status = false /\
       m' = ("BLS fetch failed (" ++ Js.string_of_Z status ++ ")")%string).
Proof.
  intros Hc Hlive Hk. split; [|apply deliver_rejected].
  destruct (invariant_run Number_toString Date_parse_other es Hook.init
              (invariant_init Number_toString Date_parse_other))
    as [_ Hlast].
  destruct (Hlast c Hc) as [Hcan | [Hfl | [Hfa | Hre]]].
  - congruence.
  - destruct Hfl as (_ & Hno & _). now destruct (Hno k m).
  - destruct Hfa as (_ & k' & m' & Hk' & Hst). now exists k', m'.
  - destruct Hre as (_ & a & b & d & Ha & Hb & Hd & _).
    destruct k; simpl in Hk; congruence.
Qed.

(** Two calls succeed and one is answered 503: the state is the error. *)
Example one_fails_state :
  Hook.state
    (Hook.run Sample.Number_toString Sample.Date_parse_other Hook.init
       Sample.one_fails)
  = Hook.mkState false (Some "BLS fetch failed (503)"%string) None.
Proof. reflexivity. Qed.

(** The failure comes first and the successes after it: the same state. *)
Example fails_first_state :
  Hook.state
    (Hook.run Sample.Number_toString Sample.Date_parse_other Hook.init
       [Hook.Render 2015;
        Hook.Deliver 0 Hook.CORE_SA (Hook.NetworkFault "Failed to fetch");
        Hook.Deliver 0 Hook.HEADLINE_NSA (Hook.Response 200);
        Hook.Deliver 0 Hook.HEADLINE_SA (Hook.Response 200);
        Hook.Deliver 0 Hook.HEADLINE_NSA (Hook.Body Sample.january);
        Hook.Deliver 0 Hook.HEADLINE_SA (Hook.Body Sample.january)])
  = Hook.mkState false (Some "Failed to fetch"%string) None.
Proof. reflexivity. Qed.

(** C7: the completion of a cycle that is not the one started last, by
    success or by failure, leaves the state as it is. *)
Theorem stale_completion_ignored
  (Number_toString : float -> string) (Date_parse_other : string -> Date.Date)
  (es : list Hook.Event) (n : nat) (k : Hook.SeriesKey) (d : Hook.Delivery) :
  n <> Hook.latest (Hook.run Number_toString Date_parse_other Hook.init es) ->
  Hook.state
    (Hook.step Number_toString Date_parse_other
       (Hook.run Number_toString Date_parse_other Hook.init es)
       (Hook.Deliver n k d))
  = Hook.state (Hook.run Number_toString Date_parse_other Hook.init es).
Proof.
  intros Hn. apply deliver_cancelled. intros c Hc.
  destruct (invariant_run Number_toString Date_parse_other es Hook.init
              (invariant_init Number_toString Date_parse_other))
    as [Hold _].
  now apply (Hold n c).
Qed.

Lemma stale_completion_ignored_witness :
  Hook.state
    (Hook.step Sample.Number_toString Sample.Date_parse_other
       (Hook.run Sample.Number_toString Sample.Date_parse_other Hook.init
          Sample.superseded)
       (Hook.Deliver 0 Hook.CORE_SA (Hook.Body Sample.january)))
  = Hook.state
      (Hook.run Sample.Number_toString Sample.Date_parse_other Hook.init
         Sample.superseded).
Proof.
  apply (stale_completion_ignored Sample.Number_toString
           Sample.Date_parse_other Sample.superseded 0 Hook.CORE_SA
           (Hook.Body Sample.january)).
  vm_compute. lia.
Defined.

(** The last body completes the first cycle: in place, it publishes the
    three series; superseded, it leaves the newer cycle's loading state. *)
Example completion_in_place :
  Hook.state
    (Hook.step Sample.Number_toString Sample.Date_parse_other
       (Hook.run Sample.Number_toString Sample.Date_parse_other Hook.init
          Sample.nearly_done)
       (Hook.Deliver 0 Hook.CORE_SA (Hook.Body Sample.january)))
  = Hook.mkState false None
      (Some (Chart.mkData
               [Parser.mkPoint (Some 1672531200000%Z) 299.25]
               [Parser.mkPoint (Some 1672531200000%Z) 299.25]
               [Parser.mkPoint (Some 1672531200000%Z) 299.25])).
Proof. reflexivity. Qed.

Example completion_superseded :
  Hook.state
    (Hook.step Sample.Number_toString Sample.Date_parse_other
       (Hook.run Sample.Number_toString Sample.Date_parse_other Hook.init
          Sample.superseded)
       (Hook.Deliver 0 Hook.CORE_SA (Hook.Body Sample.january)))
  = Hook.Loading.
Proof. reflexivity. Qed.

(** ** Rows evaluated *)

(** Rows pair points by position: the reference point of January 2023
    takes the value of the auxiliary point at the same index, dated March
    2020. *)
Example chartData_pairs_by_position :
  Chart.chartData (fun _ => 0%Z)
    (Some (Chart.mkData
             [Parser.mkPoint (Some 1672531200000%Z) 299.25]
             [Parser.mkPoint (Some 1583020800000%Z) 258.5]
             []))
  = [Chart.mkChartRow "2023-01" 299.25 (Some 258.5%float) None].
Proof. reflexivity. Qed.

(** The label is read in local time: five hours west of Greenwich the
    first of January is still December; an Invalid Date has no label. *)
Example label_local_time :
  Chart.label (fun _ => (-18000000)%Z) (Some 1672531200000%Z) = "2022-12"%string /\
  Chart.label (fun _ => 0%Z) (Some 1672531200000%Z) = "2023-01"%string /\
  Chart.label (fun _ => 0%Z) None = "NaN-NaN"%string.
Proof. repeat split. Qed.

(** * Further properties *)

(** ** Metric calculator and formatting *)

Section PctFacts.
Local Open Scope float_scope.

Lemma pct_Prim2SF (latest prev : float) :
  Prim2SF (((latest - prev) / prev) * 100)
  = SF64mul (SF64div (SF64sub (Prim2SF latest) (Prim2SF prev)) (Prim2SF prev))
      (S754_finite false 7036874417766400 (-46)).
Proof. now rewrite mul_spec, div_spec, sub_spec. Qed.

Lemma SFcompare_refl (f : spec_float) :
  f <> S754_nan -> SFcompare f f = Some Eq.
Proof.
  destruct f as [s|s| |s m e]; intros H; try congruence.
  - reflexivity.
  - now destruct s.
  - simpl. rewrite Z.compare_refl.
    replace (Pos.compare_cont Eq m m) with Eq
      by (symmetry; apply Pos.compare_refl).
    now destruct s.
Qed.

(** [Number.isNaN] *)
Lemma is_nan_spec (x : float) : is_nan x = true <-> Prim2SF x = S754_nan.
Proof.
  unfold is_nan. rewrite eqb_spec. unfold SFeqb. split.
  - intros H. destruct (Prim2SF x) as [s|s| |s m e] eqn:E; try reflexivity;
      rewrite SFcompare_refl in H by congruence; discriminate.
  - intros ->. reflexivity.
Qed.

Lemma pct_nan (latest prev : float) :
  is_nan latest = true \/ is_nan prev = true ->
  is_nan (((latest - prev) / prev) * 100) = true.
Proof.
  rewrite !is_nan_spec, pct_Prim2SF. intros [-> | ->].
  - reflexivity.
  - now destruct (Prim2SF latest).
Qed.

Lemma pct_flat (x : float) :
  Num.finite_nonzero x -> (((x - x) / x) * 100 =? 0) = true.
Proof.
  intros (s & m & e & Hx). rewrite eqb_spec, pct_Prim2SF, Hx.
  unfold SF64sub, SFsub. rewrite Z.sub_diag.
  destruct s; reflexivity.
Qed.

Lemma pct_infinite (latest prev : float) :
  Calc.is_zero_denominator prev -> Num.finite_nonzero latest ->
  exists sign, Prim2SF (((latest - prev) / prev) * 100) = S754_infinity sign.
Proof.
  intros [sz Hz] (s & m & e & Hl). rewrite pct_Prim2SF, Hz, Hl.
  eexists. reflexivity.
Qed.

Lemma fmtPct_infinite (toFixed_finite : float -> nat -> string) (r : float)
  (sign : bool) :
  Prim2SF r = S754_infinity sign ->
  Fmt.fmtPct toFixed_finite (Some r) = "Infinity%"%string \/
  Fmt.fmtPct toFixed_finite (Some r) = "-Infinity%"%string.
Proof.
  intros Hr. unfold Fmt.fmtPct, Fmt.toFixed.
  assert (Hn : is_nan r = false).
  { destruct (is_nan r) eqn:E; [|reflexivity].
    apply is_nan_spec in E. congruence. }
  assert (Hi : is_infinity r = true).
  { unfold is_infinity. rewrite eqb_spec, abs_spec, Hr. reflexivity. }
  rewrite Hn, Hi. destruct (r <? 0); [now right | now left].
Qed.
End PctFacts.

(** X1: when the latest value or the value it is compared with is NaN (as
    the parser gives for a value that is no number), the change is NaN, not
    [null], and [fmtPct] shows it as the placeholder. *)
Theorem nan_change_is_placeholder
  (toFixed_finite : float -> nat -> string)
  (pre mid : list float) (prev latest : float) :
  is_nan latest = true \/ is_nan prev = true ->
  (List.length mid = 11%nat ->
   exists r,
     Calc.pctChangeYoY (Some (pre ++ prev :: mid ++ [latest])) = Some r /\
     is_nan r = true /\
     Fmt.fmtPct toFixed_finite (Some r) = Fmt.placeholder) /\
  (exists r,
     Calc.pctChangeMoM (Some (pre ++ [prev; latest])) = Some r /\
     is_nan r = true /\
     Fmt.fmtPct toFixed_finite (Some r) = Fmt.placeholder).
Proof.
  intros H. pose proof (pct_nan latest prev H) as Hn. split.
  - intros Hmid. eexists. split; [now apply pctChangeYoY_split|].
    split; [exact Hn|]. unfold Fmt.fmtPct. now rewrite Hn.
  - eexists. split; [apply pctChangeMoM_split|].
    split; [exact Hn|]. unfold Fmt.fmtPct. now rewrite Hn.
Qed.

Lemma nan_change_is_placeholder_witness :
  (exists r,
     Calc.pctChangeYoY
       (Some ([] ++ 300 :: [1; 2; 3; 4; 5; 6; 7; 8; 9; 10; 11] ++ [nan])%float)
     = Some r /\
     is_nan r = true /\
     Fmt.fmtPct (fun _ _ => "0"%string) (Some r) = Fmt.placeholder) /\
  (exists r,
     Calc.pctChangeMoM (Some ([] ++ [300; nan])%float) = Some r /\
     is_nan r = true /\
     Fmt.fmtPct (fun _ _ => "0"%string) (Some r) = Fmt.placeholder).
Proof.
  destruct (nan_change_is_placeholder (fun _ _ => "0"%string) []
              [1; 2; 3; 4; 5; 6; 7; 8; 9; 10; 11]%float 300%float nan)
    as [Hy Hm].
  - left. reflexivity.
  - split; [apply Hy; reflexivity | exact Hm].
Defined.

(** X2: when the latest value equals the value it is compared with, and
    that value is finite and not zero, the change is zero. *)
Theorem flat_series_is_zero (pre mid : list float) (x : float) :
  Num.finite_nonzero x ->
  (List.length mid = 11%nat ->
   exists r,
     Calc.pctChangeYoY (Some (pre ++ x :: mid ++ [x])) = Some r /\
     (r =? 0)%float = true) /\
  (exists r,
     Calc.pctChangeMoM (Some (pre ++ [x; x])) = Some r /\
     (r =? 0)%float = true).
Proof.
  intros Hx. pose proof (pct_flat x Hx) as Hz. split.
  - intros Hmid. eexists. split; [now apply pctChangeYoY_split | exact Hz].
  - eexists. split; [apply pctChangeMoM_split | exact Hz].
Qed.

Lemma flat_series_is_zero_witness :
  (exists r,
     Calc.pctChangeYoY
       (Some ([1] ++ 299.25 :: [1; 2; 3; 4; 5; 6; 7; 8; 9; 10; 11] ++ [299.25])%float)
     = Some r /\ (r =? 0)%float = true) /\
  (exists r,
     Calc.pctChangeMoM (Some ([1] ++ [299.25; 299.25])%float) = Some r /\
     (r =? 0)%float = true).
Proof.
  destruct (flat_series_is_zero [1]%float
              [1; 2; 3; 4; 5; 6; 7; 8; 9; 10; 11]%float 299.25%float)
    as [Hy Hm].
  - do 3 eexists. vm_compute. reflexivity.
  - split; [apply Hy; reflexivity | exact Hm].
Defined.

(** X3: over a denominator of exactly zero, a latest value that is finite
    and not zero is displayed by [fmtPct] as ["Infinity%"] or
    ["-Infinity%"], not as the placeholder. *)
Theorem zero_denominator_shows_infinity
  (toFixed_finite : float -> nat -> string)
  (pre mid : list float) (denominator latest : float) :
  Calc.is_zero_denominator denominator ->
  Num.finite_nonzero latest ->
  (List.length mid = 11%nat ->
   Fmt.fmtPct toFixed_finite
     (Calc.pctChangeYoY (Some (pre ++ denominator :: mid ++ [latest])))
   = "Infinity%"%string \/
   Fmt.fmtPct toFixed_finite
     (Calc.pctChangeYoY (Some (pre ++ denominator :: mid ++ [latest])))
   = "-Infinity%"%string) /\
  (Fmt.fmtPct toFixed_finite
     (Calc.pctChangeMoM (Some (pre ++ [denominator; latest])))
   = "Infinity%"%string \/
   Fmt.fmtPct toFixed_finite
     (Calc.pctChangeMoM (Some (pre ++ [denominator; latest])))
   = "-Infinity%"%string).
Proof.
  intros Hz Hl. destruct (pct_infinite latest denominator Hz Hl) as [s Hs].
  split.
  - intros Hmid. rewrite pctChangeYoY_split by assumption.
    now apply fmtPct_infinite with s.
  - rewrite pctChangeMoM_split. now apply fmtPct_infinite with s.
Qed.

Lemma zero_denominator_shows_infinity_witness :
  Fmt.fmtPct (fun _ _ => "0"%string)
    (Calc.pctChangeMoM (Some ([] ++ [0; 299.25])%float))
  = "Infinity%"%string \/
  Fmt.fmtPct (fun _ _ => "0"%string)
    (Calc.pctChangeMoM (Some ([] ++ [0; 299.25])%float))
  = "-Infinity%"%string.
Proof.
  destruct (zero_denominator_shows_infinity (fun _ _ => "0"%string)
              [] [] 0%float 299.25%float) as [_ Hm].
  - exists false. reflexivity.
  - do 3 eexists. vm_compute. reflexivity.
  - exact Hm.
Defined.

(** ** Series parser: order *)

Section SortOrder.
Context {A : Type}.
Variable cmp : A -> A -> option Z.
Variable key : A -> Z.
Hypothesis cmp_key : forall x y, cmp x y = Some (key x - key y)%Z.

Lemma insert_first (x : A) (l : list A) :
  Forall (fun z => (key x <= key z)%Z) l -> Parser.insert cmp x l = x :: l.
Proof.
  destruct l as [|y r]; [reflexivity|]. intros H. inversion_clear H as [|? ? Hy _].
  simpl. rewrite cmp_key. unfold Parser.positive.
  destruct (Z.ltb_spec 0 (key x - key y)); [lia|reflexivity].
Qed.

Lemma insert_last (x : A) (l : list A) :
  Forall (fun z => (key z < key x)%Z) l -> Parser.insert cmp x l = l ++ [x].
Proof.
  induction 1 as [|y r Hy _ IH]; [reflexivity|].
  simpl. rewrite cmp_key. unfold Parser.positive.
  destruct (Z.ltb_spec 0 (key x - key y)); [|lia]. now rewrite IH.
Qed.

(** A list already in order is left as it is. *)
Lemma sort_ascending (l : list A) :
  StronglySorted (fun a b => (key a <= key b)%Z) l -> Parser.sort cmp l = l.
Proof.
  induction 1 as [|x r _ IH Hx]; [reflexivity|].
  simpl. rewrite IH. now apply insert_first.
Qed.

(** A list in strictly descending order is reversed. *)
Lemma sort_descending (l : list A) :
  StronglySorted (fun a b => (key b < key a)%Z) l -> Parser.sort cmp l = rev l.
Proof.
  induction 1 as [|x r _ IH Hx]; [reflexivity|].
  simpl. rewrite IH. apply insert_last.
  apply Forall_forall. intros z Hz. apply in_rev in Hz.
  rewrite Forall_forall in Hx. now apply Hx.
Qed.
End SortOrder.

Section ParserOrder.
Variable Number_toString : float -> string.
Variable Date_parse_other : string -> Date.Date.

Local Abbreviation point_of :=
  (Parser.point_of Number_toString Date_parse_other).
Local Abbreviation parseBlsSeries :=
  (Parser.parseBlsSeries Number_toString Date_parse_other).
Local Abbreviation point := (Shape.point Number_toString Date_parse_other).

Lemma Forall2_map_points (l : list Json.json) :
  Forall (fun d => Shape.well_formed d = true) l ->
  Forall2 (fun d p => point_of d = Exn.Ok p) l (map point l).
Proof.
  induction 1 as [|d r Hd _ IH]; simpl; constructor; [|exact IH].
  now apply point_of_point.
Qed.

Lemma StronglySorted_map_time (l : list Json.json) :
  StronglySorted (fun a b => (Shape.time a <= Shape.time b)%Z) l ->
  StronglySorted Z.le (map Shape.time l).
Proof.
  induction 1 as [|d r _ IH Hd]; simpl; constructor; [exact IH|].
  now apply Forall_map.
Qed.

Lemma date_of_points (l : list Json.json) :
  map Parser.date (map point l) = map Some (map Shape.time l).
Proof. rewrite !map_map. reflexivity. Qed.
End ParserOrder.

(** X4: on a payload of well-formed tuples, which may name a month more
    than once, the dates of the parsed series are the first days of the
    tuples' months in ascending (not necessarily strict) order. *)
Theorem parse_sorted_with_duplicates
  (Number_toString : float -> string) (Date_parse_other : string -> Date.Date)
  (json : Json.json) (l : list Json.json) :
  Shape.series_data json = Some l ->
  Forall (fun d => Shape.well_formed d = true) l ->
  exists times,
    Permutation (map Shape.time l) times /\
    StronglySorted Z.le times /\
    map Parser.date (Parser.parseBlsSeries Number_toString Date_parse_other json)
    = map Some times.
Proof.
  intros H Hl. exists (map Shape.time (Parser.sort Shape.by_time l)).
  split; [|split].
  - apply Permutation_map, sort_perm.
  - apply StronglySorted_map_time.
    apply (sort_sorted Shape.by_time Shape.time). reflexivity.
  - rewrite (parse_well_formed Number_toString Date_parse_other json l H Hl).
    apply date_of_points.
Qed.

Lemma parse_sorted_with_duplicates_witness :
  exists times,
    Permutation
      (map Shape.time
         [Sample.tuple "2023" "M02" "300.8"; Sample.tuple "2023" "M01" "299.1";
          Sample.tuple "2023" "M02" "300.9"])
      times /\
    StronglySorted Z.le times /\
    map Parser.date
      (Parser.parseBlsSeries Sample.Number_toString Sample.Date_parse_other
         (Sample.payload
            [Sample.tuple "2023" "M02" "300.8"; Sample.tuple "2023" "M01" "299.1";
             Sample.tuple "2023" "M02" "300.9"]))
    = map Some times.
Proof.
  apply (parse_sorted_with_duplicates Sample.Number_toString
           Sample.Date_parse_other).
  - reflexivity.
  - repeat constructor.
Defined.

(** X5: a payload of well-formed tuples that is already in chronological
    order is parsed in place: point [n] of the series is the point of tuple
    [n], and tuples of the same month keep their order. *)
Theorem parse_keeps_chronological_order
  (Number_toString : float -> string) (Date_parse_other : string -> Date.Date)
  (json : Json.json) (l : list Json.json) :
  Shape.series_data json = Some l ->
  Forall (fun d => Shape.well_formed d = true) l ->
  StronglySorted (fun a b => (Shape.time a <= Shape.time b)%Z) l ->
  Forall2
    (fun d p => Parser.point_of Number_toString Date_parse_other d = Exn.Ok p)
    l (Parser.parseBlsSeries Number_toString Date_parse_other json).
Proof.
  intros H Hl Hs.
  rewrite (parse_well_formed Number_toString Date_parse_other json l H Hl).
  rewrite (sort_ascending Shape.by_time Shape.time) by (reflexivity || exact Hs).
  now apply Forall2_map_points.
Qed.

Lemma parse_keeps_chronological_order_witness :
  Forall2
    (fun d p =>
       Parser.point_of Sample.Number_toString Sample.Date_parse_other d
       = Exn.Ok p)
    [Sample.tuple "2022" "M12" "296.7"; Sample.tuple "2023" "M01" "299.1";
     Sample.tuple "2023" "M01" "299.2"]
    (Parser.parseBlsSeries Sample.Number_toString Sample.Date_parse_other
       (Sample.payload
          [Sample.tuple "2022" "M12" "296.7"; Sample.tuple "2023" "M01" "299.1";
           Sample.tuple "2023" "M01" "299.2"])).
Proof.
  apply parse_keeps_chronological_order.
  - reflexivity.
  - repeat constructor.
  - repeat constructor; vm_compute; discriminate.
Defined.

(** X6: a payload of well-formed tuples in strictly descending order of
    month, newest first as the API answers, is parsed into the reversed
    list of its points. *)
Theorem parse_reverses_newest_first
  (Number_toString : float -> string) (Date_parse_other : string -> Date.Date)
  (json : Json.json) (l : list Json.json) :
  Shape.series_data json = Some l ->
  Forall (fun d => Shape.well_formed d = true) l ->
  StronglySorted (fun a b => (Shape.time b < Shape.time a)%Z) l ->
  Forall2
    (fun d p => Parser.point_of Number_toString Date_parse_other d = Exn.Ok p)
    (rev l) (Parser.parseBlsSeries Number_toString Date_parse_other json).
Proof.
  intros H Hl Hs.
  rewrite (parse_well_formed Number_toString Date_parse_other json l H Hl).
  rewrite (sort_descending Shape.by_time Shape.time) by (reflexivity || exact Hs).
  apply Forall2_map_points. now apply Forall_rev.
Qed.

Lemma parse_reverses_newest_first_witness :
  Forall2
    (fun d p =>
       Parser.point_of Sample.Number_toString Sample.Date_parse_other d
       = Exn.Ok p)
    (rev [Sample.tuple "2023" "M02" "300.8"; Sample.tuple "2023" "M01" "299.1";
          Sample.tuple "2022" "M12" "296.7"])
    (Parser.parseBlsSeries Sample.Number_toString Sample.Date_parse_other
       (Sample.payload
          [Sample.tuple "2023" "M02" "300.8"; Sample.tuple "2023" "M01" "299.1";
           Sample.tuple "2022" "M12" "296.7"])).
Proof.
  apply parse_reverses_newest_first.
  - reflexivity.
  - repeat constructor.
  - repeat constructor; vm_compute; reflexivity.
Defined.

(** X7: a tuple with a year of four digits [y] and a period of a marker and
    two digits [m] becomes a point dated the first day of month [m] of year
    [y] when [m] is 01 to 12, and a point with an Invalid Date otherwise (the
    annual average, period M13, is such a point). *)
Theorem point_date_by_month
  (Number_toString : float -> string) (Date_parse_other : string -> Date.Date)
  (o : list (string * Json.json)) (y1 y2 y3 y4 c m1 m2 : ascii)
  (y m : Z) (v : Json.json) :
  Json.assoc "year" o
  = Some (Json.Str (String y1 (String y2 (String y3 (String y4 EmptyString))))) ->
  Json.assoc "period" o
  = Some (Json.Str (String c (String m1 (String m2 EmptyString)))) ->
  Json.assoc "value" o = Some v ->
  Shape.is_scalar v = true ->
  Date.digits4 y1 y2 y3 y4 = Some y ->
  Date.digits2 m1 m2 = Some m ->
  exists x,
    Parser.point_of Number_toString Date_parse_other (Json.Obj o)
    = Exn.Ok
        (Parser.mkPoint
           (if ((1 <=? m) && (m <=? 12))%Z then Some (Date.UTC y m 1) else None)
           x).
Proof.
  intros Hy Hp Hv Hs Ey Em.
  unfold Parser.point_of, Parser.parseFloat.
  cbn [Json.get Exn.bind]. rewrite Hy, Hp, Hv.
  destruct (to_string_scalar Number_toString v Hs) as [sv Hsv].
  cbn [Json.ToString Json.to_string Json.substr1 Js.substr1 Exn.bind].
  rewrite Hsv. cbn [Exn.bind].
  eexists. do 2 f_equal.
  unfold Date.parse. cbn [append Date.iso_date_only]. rewrite Ey, Em.
  change (Date.digits2 "0" "1") with (Some 1%Z).
  assert (Hd : (1 <=? Date.DaysInMonth y m)%Z = true)
    by (apply Z.leb_le, DaysInMonth_pos).
  cbv iota beta. rewrite Hd. change (1 <=? 1)%Z with true.
  now rewrite !andb_true_r.
Qed.

Lemma point_date_by_month_witness :
  exists x,
    Parser.point_of Sample.Number_toString Sample.Date_parse_other
      (Json.Obj [("year", Json.Str "2022"); ("period", Json.Str "M13");
                 ("value", Json.Str "292.655")]%string)
    = Exn.Ok
        (Parser.mkPoint
           (if ((1 <=? 13) && (13 <=? 12))%Z
            then Some (Date.UTC 2022 13 1) else None)
           x).
Proof.
  apply (point_date_by_month Sample.Number_toString Sample.Date_parse_other
           [("year", Json.Str "2022"); ("period", Json.Str "M13");
            ("value", Json.Str "292.655")]%string
           "2" "0" "2" "2" "M" "1" "3" 2022 13 (Json.Str "292.655")).
  - reflexivity.
  - reflexivity.
  - reflexivity.
  - reflexivity.
  - reflexivity.
  - reflexivity.
Defined.

(** ** Row labels and local time *)

Section LabelFacts.
Local Open Scope Z_scope.

Lemma DaysInYear (y : Z) :
  Date.DayFromYear (y + 1) - Date.DayFromYear y
  = if Date.InLeapYear y then 366 else 365.
Proof.
  unfold Date.DayFromYear, Date.InLeapYear.
  destruct (Z.eqb_spec (y mod 4) 0); destruct (Z.eqb_spec (y mod 100) 0);
    destruct (Z.eqb_spec (y mod 400) 0); cbn [andb orb negb];
    Z.div_mod_to_equations; lia.
Qed.

Lemma day_east (y m tz : Z) :
  0 <= tz < Date.msPerDay ->
  (Date.UTC y m 1 + tz) / Date.msPerDay
  = Date.DayFromYear y + Date.month_start (Date.InLeapYear y) m.
Proof.
  unfold Date.UTC, Date.msPerDay. intros H.
  generalize (Date.DayFromYear y + Date.month_start (Date.InLeapYear y) m).
  intros D. Z.div_mod_to_equations. lia.
Qed.

Lemma day_west (y m tz : Z) :
  - Date.msPerDay <= tz < 0 ->
  (Date.UTC y m 1 + tz) / Date.msPerDay
  = Date.DayFromYear y + Date.month_start (Date.InLeapYear y) m - 1.
Proof.
  unfold Date.UTC, Date.msPerDay. intros H.
  generalize (Date.DayFromYear y + Date.month_start (Date.InLeapYear y) m).
  intros D. Z.div_mod_to_equations. lia.
Qed.

(** The month of a time value, from its day within the year. *)
Lemma MonthFromTime_day (t y d : Z) :
  t / Date.msPerDay = Date.DayFromYear y + d ->
  0 <= d -> Date.DayFromYear y + d < Date.DayFromYear (y + 1) ->
  Date.YearFromTime t = y /\
  Date.MonthFromTime t
  = let leap := Date.InLeapYear y in
    if d <? Date.month_start leap 2 then 0
    else if d <? Date.month_start leap 3 then 1
    else if d <? Date.month_start leap 4 then 2
    else if d <? Date.month_start leap 5 then 3
    else if d <? Date.month_start leap 6 then 4
    else if d <? Date.month_start leap 7 then 5
    else if d <? Date.month_start leap 8 then 6
    else if d <? Date.month_start leap 9 then 7
    else if d <? Date.month_start leap 10 then 8
    else if d <? Date.month_start leap 11 then 9
    else if d <? Date.month_start leap 12 then 10
    else 11.
Proof.
  intros Ht Hd Hd'.
  assert (Hy : Date.YearFromTime t = y).
  { unfold Date.YearFromTime. rewrite Ht. apply year_of_day_unique. lia. }
  split; [exact Hy|].
  unfold Date.MonthFromTime. rewrite Hy, Ht.
  replace (Date.DayFromYear y + d - Date.DayFromYear y) with d by lia.
  reflexivity.
Qed.

Lemma local_east (tz : Z -> Z) (y m : Z) :
  1 <= m <= 12 ->
  0 <= tz (Date.UTC y m 1) < Date.msPerDay ->
  Date.getFullYear tz (Some (Date.UTC y m 1)) = Some y /\
  Date.getMonth tz (Some (Date.UTC y m 1)) = Some (m - 1).
Proof.
  intros Hm Htz. unfold Date.getFullYear, Date.getMonth, Date.LocalTime.
  cbn [option_map].
  pose proof (month_start_bounds (Date.InLeapYear y) m Hm) as Hb.
  destruct (MonthFromTime_day (Date.UTC y m 1 + tz (Date.UTC y m 1)) y
              (Date.month_start (Date.InLeapYear y) m)) as [Hy Hmo].
  - now apply day_east.
  - lia.
  - pose proof (DayFromYear_lt y (y + 1)). lia.
  - rewrite Hy, Hmo. split; [reflexivity|]. f_equal.
    apply month_cases in Hm.
    destruct (Date.InLeapYear y);
      repeat (destruct Hm as [-> | Hm]; [reflexivity|]); subst; reflexivity.
Qed.

Lemma local_west (tz : Z -> Z) (y m : Z) :
  1 <= m <= 12 ->
  - Date.msPerDay <= tz (Date.UTC y m 1) < 0 ->
  Date.getFullYear tz (Some (Date.UTC y m 1))
  = Some (fst (Month.previous (y, m))) /\
  Date.getMonth tz (Some (Date.UTC y m 1))
  = Some (snd (Month.previous (y, m)) - 1).
Proof.
  intros Hm Htz. unfold Date.getFullYear, Date.getMonth, Date.LocalTime.
  cbn [option_map].
  pose proof (day_west y m (tz (Date.UTC y m 1)) Htz) as Hday.
  unfold Month.previous. cbn [fst snd].
  destruct (Z.eqb_spec m 1) as [->|Hne].
  - pose proof (DaysInYear (y - 1)) as Hdays.
    replace (y - 1 + 1) with y in Hdays by lia.
    destruct (MonthFromTime_day (Date.UTC y 1 1 + tz (Date.UTC y 1 1)) (y - 1)
                (if Date.InLeapYear (y - 1) then 365 else 364))
      as [Hy Hmo].
    + rewrite Hday. cbn [Date.month_start].
      destruct (Date.InLeapYear (y - 1)); lia.
    + destruct (Date.InLeapYear (y - 1)); lia.
    + replace (y - 1 + 1) with y by lia.
      destruct (Date.InLeapYear (y - 1)); lia.
    + rewrite Hy, Hmo. cbn [fst snd]. split; [reflexivity|]. f_equal.
      destruct (Date.InLeapYear (y - 1)); reflexivity.
  - pose proof (month_start_bounds (Date.InLeapYear y) m Hm) as Hb.
    pose proof (month_start_lt (Date.InLeapYear y) 1 m) as Hlt.
    cbn [Date.month_start] in Hlt.
    destruct (MonthFromTime_day (Date.UTC y m 1 + tz (Date.UTC y m 1)) y
                (Date.month_start (Date.InLeapYear y) m - 1)) as [Hy Hmo].
    + rewrite Hday. lia.
    + lia.
    + pose proof (DayFromYear_lt y (y + 1)). lia.
    + rewrite Hy, Hmo. cbn [fst snd]. split; [reflexivity|]. f_equal.
      apply month_cases in Hm.
      destruct (Date.InLeapYear y);
        repeat (destruct Hm as [-> | Hm]; [reflexivity || lia|]);
        subst; reflexivity.
Qed.
End LabelFacts.

Lemma label_east_of_utc_aux (LocalTZA : Z -> Z) (y m : Z) :
  (1 <= m <= 12)%Z ->
  (0 <= LocalTZA (Date.UTC y m 1) < Date.msPerDay)%Z ->
  Chart.label LocalTZA (Shape.month_date (y, m)) = Month.label (y, m).
Proof.
  intros Hm Htz. unfold Chart.label, Shape.month_date, Month.label.
  cbn [fst snd].
  destruct (local_east LocalTZA y m Hm Htz) as [-> ->].
  cbn [option_map Chart.string_of_number].
  now replace (m - 1 + 1)%Z with m by lia.
Qed.

(** X8: where local time is UTC or ahead of it by less than a day, the
    row of a point dated the first day of a month is labelled with that
    month, ["YYYY-MM"]. *)
Theorem label_east_of_utc (LocalTZA : Z -> Z) (y m : Z) :
  (1 <= m <= 12)%Z ->
  (0 <= LocalTZA (Date.UTC y m 1) < Date.msPerDay)%Z ->
  Chart.label LocalTZA (Shape.month_date (y, m)) = Month.label (y, m).
Proof. apply label_east_of_utc_aux. Qed.

Lemma label_east_of_utc_witness :
  Chart.label (fun _ => 3600000%Z) (Shape.month_date (2024, 3)%Z)
  = Month.label (2024, 3)%Z.
Proof.
  apply (label_east_of_utc (fun _ => 3600000%Z) 2024 3).
  - lia.
  - unfold Date.msPerDay. lia.
Defined.

(** X9: where local time is behind UTC (by a day at most), the row of a
    point dated the first day of a month is labelled with the month before:
    the label is read in local time, where that instant is still the last
    day of the previous month. *)
Theorem label_west_of_utc (LocalTZA : Z -> Z) (y m : Z) :
  (1 <= m <= 12)%Z ->
  (- Date.msPerDay <= LocalTZA (Date.UTC y m 1) < 0)%Z ->
  Chart.label LocalTZA (Shape.month_date (y, m))
  = Month.label (Month.previous (y, m)).
Proof.
  intros Hm Htz. unfold Chart.label, Shape.month_date, Month.label.
  cbn [fst snd].
  destruct (local_west LocalTZA y m Hm Htz) as [-> ->].
  cbn [option_map Chart.string_of_number].
  now replace (snd (Month.previous (y, m)) - 1 + 1)%Z
    with (snd (Month.previous (y, m))) by lia.
Qed.

Lemma label_west_of_utc_witness :
  Chart.label (fun _ => (-18000000)%Z) (Shape.month_date (2023, 1)%Z)
  = Month.label (Month.previous (2023, 1)%Z).
Proof.
  apply (label_west_of_utc (fun _ => (-18000000)%Z) 2023 1).
  - lia.
  - unfold Date.msPerDay. lia.
Defined.

(** In New York the row of January 2023 reads December 2022. *)
Example label_new_york :
  Chart.label (fun _ => (-18000000)%Z) (Shape.month_date (2023, 1)%Z)
  = "2022-12"%string.
Proof. reflexivity. Qed.

(** ** Derived metrics *)

(** X10: a reference payload without its array is no error.  When the
    three calls are fulfilled the state is ready; with a headline-NSA payload
    that has no array at [Results.series[0].data], the chart has no rows and
    the headline year-over-year change and the latest month are missing,
    whatever the other two payloads hold. *)
Theorem malformed_reference_empties_dashboard
  (Number_toString : float -> string) (Date_parse_other : string -> Date.Date)
  (LocalTZA : Z -> Z) (c : Hook.Cycle) (st : Hook.State)
  (a b d : Json.json) :
  Hook.cancelled c = false ->
  Shape.series_data a = None ->
  Hook.loading (Hook.resolved Number_toString Date_parse_other c st a b d)
  = false /\
  Hook.error (Hook.resolved Number_toString Date_parse_other c st a b d)
  = None /\
  Chart.chartData LocalTZA
    (Hook.data (Hook.resolved Number_toString Date_parse_other c st a b d))
  = [] /\
  exists m,
    Chart.metrics
      (Hook.data (Hook.resolved Number_toString Date_parse_other c st a b d))
    = Some m /\
    Chart.headlineYoY m = None /\ Chart.lastDate m = None.
Proof.
  intros Hc Ha. unfold Hook.resolved, Hook.parseBlsSeries. rewrite Hc.
  cbn [Hook.loading Hook.error Hook.data].
  rewrite (parse_without_array Number_toString Date_parse_other a Ha).
  repeat split. eexists. split; [reflexivity|]. split; reflexivity.
Qed.

Lemma malformed_reference_empties_dashboard_witness :
  Hook.loading
    (Hook.resolved Sample.Number_toString Sample.Date_parse_other
       (Hook.start 2015) Hook.Loading (Json.Obj []) Sample.january
       Sample.january)
  = false /\
  Hook.error
    (Hook.resolved Sample.Number_toString Sample.Date_parse_other
       (Hook.start 2015) Hook.Loading (Json.Obj []) Sample.january
       Sample.january)
  = None /\
  Chart.chartData (fun _ => 0%Z)
    (Hook.data
       (Hook.resolved Sample.Number_toString Sample.Date_parse_other
          (Hook.start 2015) Hook.Loading (Json.Obj []) Sample.january
          Sample.january))
  = [] /\
  exists m,
    Chart.metrics
      (Hook.data
         (Hook.resolved Sample.Number_toString Sample.Date_parse_other
            (Hook.start 2015) Hook.Loading (Json.Obj []) Sample.january
            Sample.january))
    = Some m /\
    Chart.headlineYoY m = None /\ Chart.lastDate m = None.
Proof.
  apply (malformed_reference_empties_dashboard Sample.Number_toString
           Sample.Date_parse_other (fun _ => 0%Z) (Hook.start 2015)
           Hook.Loading (Json.Obj []) Sample.january Sample.january).
  - reflexivity.
  - reflexivity.
Defined.

Section LastFacts.
Context {A : Type}.
Variable R : A -> A -> Prop.

Lemma StronglySorted_last (l : list A) (z : A) :
  StronglySorted R (l ++ [z]) -> Forall (fun x => R x z) l.
Proof.
  induction l as [|x r IH]; intros H; [constructor|].
  simpl in H. inversion_clear H as [|? ? Hr Hx].
  constructor; [|now apply IH].
  rewrite Forall_forall in Hx. apply Hx, in_or_app. right. now left.
Qed.
End LastFacts.

(** X11: for a headline-NSA payload of well-formed tuples, not empty and
    in any order, the latest date of the metrics is the first day of the
    latest month the payload names. *)
Theorem lastDate_is_latest_month
  (Number_toString : float -> string) (Date_parse_other : string -> Date.Date)
  (json : Json.json) (l : list Json.json) (sa core : list Parser.Point) :
  Shape.series_data json = Some l ->
  Forall (fun d => Shape.well_formed d = true) l ->
  l <> [] ->
  exists m latest,
    Chart.metrics
      (Some (Chart.mkData
               (Parser.parseBlsSeries Number_toString Date_parse_other json)
               sa core))
    = Some m /\
    Chart.lastDate m = Some (Some (Shape.time latest)) /\
    In latest l /\
    Forall (fun d => (Shape.time d <= Shape.time latest)%Z) l.
Proof.
  intros H Hl Hne.
  rewrite (parse_well_formed Number_toString Date_parse_other json l H Hl).
  pose proof (sort_perm Shape.by_time l) as Hperm.
  pose proof (sort_sorted Shape.by_time Shape.time
                (fun x y => eq_refl) l) as Hsorted.
  destruct (exists_last (l := Parser.sort Shape.by_time l)) as (r & z & Hrz).
  { intros Hnil. rewrite Hnil in Hperm. apply Permutation_sym in Hperm.
    apply Permutation_nil in Hperm. now apply Hne. }
  rewrite Hrz in Hperm, Hsorted |- *.
  eexists. exists z. split; [reflexivity|].
  cbn [Chart.lastDate Chart.headlineNSA]. split; [|split].
  - rewrite map_app. cbn [map]. now rewrite index_last.
  - apply (Permutation_in z (Permutation_sym Hperm)).
    apply in_or_app. right. now left.
  - apply (Permutation_Forall (Permutation_sym Hperm)).
    apply Forall_app. split.
    + now apply StronglySorted_last in Hsorted.
    + constructor; [lia|constructor].
Qed.

Lemma lastDate_is_latest_month_witness :
  exists m latest,
    Chart.metrics
      (Some (Chart.mkData
               (Parser.parseBlsSeries Sample.Number_toString
                  Sample.Date_parse_other
                  (Sample.payload
                     [Sample.tuple "2023" "M02" "300.8";
                      Sample.tuple "2023" "M03" "301.8";
                      Sample.tuple "2022" "M12" "296.7"]))
               [] []))
    = Some m /\
    Chart.lastDate m = Some (Some (Shape.time latest)) /\
    In latest
      [Sample.tuple "2023" "M02" "300.8"; Sample.tuple "2023" "M03" "301.8";
       Sample.tuple "2022" "M12" "296.7"] /\
    Forall (fun d => (Shape.time d <= Shape.time latest)%Z)
      [Sample.tuple "2023" "M02" "300.8"; Sample.tuple "2023" "M03" "301.8";
       Sample.tuple "2022" "M12" "296.7"].
Proof.
  apply (lastDate_is_latest_month Sample.Number_toString
           Sample.Date_parse_other).
  - reflexivity.
  - repeat constructor.
  - discriminate.
Defined.

(** ** Acquisition: what the state can be *)

Section HookMore.
Variable Number_toString : float -> string.
Variable Date_parse_other : string -> Date.Date.

Local Abbreviation step := (Hook.step Number_toString Date_parse_other).
Local Abbreviation run := (Hook.run Number_toString Date_parse_other).
Local Abbreviation wake := (Hook.wake Number_toString Date_parse_other).
Local Abbreviation invariant :=
  (Inv.invariant Number_toString Date_parse_other).

Lemma wake_shaped (c : Hook.Cycle) (x : Hook.Call) (st : Hook.State) :
  Join.shaped st -> Join.shaped (snd (wake c x st)).
Proof.
  intros Hst. unfold Hook.wake, Hook.rejected, Hook.resolved.
  destruct (Hook.settled c); [exact Hst|].
  destruct x as [url| |j|m]; try exact Hst.
  - destruct (Hook.hNSA c), (Hook.hSA c), (Hook.coreSA c); try exact Hst.
    cbn [snd]. destruct (Hook.cancelled c); [exact Hst|].
    right. right. eexists. reflexivity.
  - cbn [snd]. destruct (Hook.cancelled c); [exact Hst|].
    right. left. now exists m.
Qed.

Lemma step_shaped (w : Hook.World) (e : Hook.Event) :
  Join.shaped (Hook.state w) -> Join.shaped (Hook.state (step w e)).
Proof.
  intros Hst. destruct e as [y| |n k d]; unfold Hook.step.
  - destruct (match Hook.deps w with
              | Some y' => (y =? y')%Z
              | None => false
              end); [exact Hst|]. now left.
  - exact Hst.
  - destruct (nth_error (Hook.cycles w) n) as [c|]; [|exact Hst].
    destruct (Hook.deliver (Hook.call k c) d) as [x|]; [|exact Hst].
    pose proof (wake_shaped (Hook.set_call k x c) x (Hook.state w) Hst) as H.
    destruct (wake (Hook.set_call k x c) x (Hook.state w)). exact H.
Qed.

Lemma run_shaped (es : list Hook.Event) (w : Hook.World) :
  Join.shaped (Hook.state w) -> Join.shaped (Hook.state (run w es)).
Proof.
  revert w. induction es as [|e es IH]; intros w Hw; [exact Hw|].
  simpl. apply IH. now apply step_shaped.
Qed.

Lemma wake_keeps_settled (c : Hook.Cycle) (x : Hook.Call) (st : Hook.State) :
  Hook.settled c = true ->
  wake c x st = (c, st).
Proof. intros H. unfold Hook.wake. now rewrite H. Qed.

Lemma settled_set_call (k : Hook.SeriesKey) (x : Hook.Call) (c : Hook.Cycle) :
  Hook.settled (Hook.set_call k x c) = Hook.settled c.
Proof. now destruct k. Qed.

Lemma cancelled_set_call (k : Hook.SeriesKey) (x : Hook.Call) (c : Hook.Cycle) :
  Hook.cancelled (Hook.set_call k x c) = Hook.cancelled c.
Proof. now destruct k. Qed.

(** A delivery to a world where every cycle is cancelled or settled
    changes no state, and leaves such a world. *)
Lemma deliver_quiet (w : Hook.World) (n : nat) (k : Hook.SeriesKey)
  (d : Hook.Delivery) :
  Join.quiet w ->
  Hook.state (step w (Hook.Deliver n k d)) = Hook.state w /\
  Join.quiet (step w (Hook.Deliver n k d)).
Proof.
  intros Hq. unfold Hook.step.
  destruct (nth_error (Hook.cycles w) n) as [c|] eqn:En; [|now split].
  destruct (Hook.deliver (Hook.call k c) d) as [x|]; [|now split].
  assert (Hc : Hook.state w = snd (wake (Hook.set_call k x c) x (Hook.state w)) /\
               (Hook.cancelled (fst (wake (Hook.set_call k x c) x (Hook.state w)))
                = true \/
                Hook.settled (fst (wake (Hook.set_call k x c) x (Hook.state w)))
                = true)).
  { destruct (Hq n c En) as [Hcan | Hset].
    - destruct (wake_cancelled Number_toString Date_parse_other
                  (Hook.set_call k x c) x (Hook.state w)) as [Hs Hc'].
      + now rewrite cancelled_set_call.
      + split; [now rewrite Hs | now left].
    - rewrite wake_keeps_settled by (now rewrite settled_set_call).
      cbn [fst snd]. split; [reflexivity|]. right.
      now rewrite settled_set_call. }
  destruct (wake (Hook.set_call k x c) x (Hook.state w)) as [c' st].
  cbn [fst snd] in Hc. destruct Hc as [Hst Hc']. cbn [Hook.state].
  split; [now symmetry|].
  intros m c1 Hm. cbn [Hook.cycles] in Hm.
  destruct (Nat.eq_dec n m) as [<-|Hne].
  - rewrite update_nth_same, En in Hm. injection Hm as <-. exact Hc'.
  - rewrite update_nth_other in Hm by assumption. now apply (Hq m c1).
Qed.

Lemma deliveries_quiet (es : list Hook.Event) (w : Hook.World) :
  Join.quiet w -> Forall Join.is_delivery es ->
  Hook.state (run w es) = Hook.state w.
Proof.
  revert w. induction es as [|e es IH]; intros w Hq Hes; [reflexivity|].
  inversion_clear Hes as [|? ? He Hes'].
  destruct e as [y| |n k d]; try contradiction.
  destruct (deliver_quiet w n k d Hq) as [Hst Hq'].
  simpl. rewrite IH by assumption. exact Hst.
Qed.

Lemma joined_start (y : Z) : Join.joined (Hook.start y).
Proof.
  split; [discriminate|]. intros _. split.
  - intros ([] & m & H); discriminate.
  - intros (a & b & d & H & _). discriminate.
Qed.

Lemma joined_cancel (c : Hook.Cycle) : Join.joined c -> Join.joined (Hook.cancel c).
Proof. intros H. exact H. Qed.

Lemma wake_joined (c : Hook.Cycle) (k : Hook.SeriesKey) (d : Hook.Delivery)
  (x : Hook.Call) (st : Hook.State) :
  Join.joined c ->
  Hook.deliver (Hook.call k c) d = Some x ->
  Join.joined (fst (wake (Hook.set_call k x c) x st)).
Proof.
  intros [Hset Hun] Hd.
  destruct (deliver_settled _ _ _ Hd) as [Hnf Hnr].
  pose proof (deliver_result _ _ _ Hd) as Hx.
  destruct (Hook.settled c) eqn:Es.
  - rewrite wake_keeps_settled by (now rewrite settled_set_call).
    cbn [fst]. split; [|rewrite settled_set_call; congruence].
    intros _. destruct (Hset eq_refl) as [(k0 & m & Hk0) | (a & b & d' & Ha & Hb & Hd')].
    + left. exists k0, m. destruct (key_eq_dec k k0) as [<-|Hne].
      * now destruct (Hnr m).
      * now rewrite call_set_other.
    + exfalso. destruct k; simpl in Hnf.
      * now apply (Hnf a).
      * now apply (Hnf b).
      * now apply (Hnf d').
  - destruct (Hun eq_refl) as [Hno Hnot].
    assert (Hno' : forall y, (forall m, y <> Hook.Rejected m) ->
                        ~ Join.some_rejected (Hook.set_call k y c)).
    { intros y Hy (k0 & m & Hk0). destruct (key_eq_dec k k0) as [<-|Hne].
      - rewrite call_set_same in Hk0. now apply (Hy m).
      - rewrite call_set_other in Hk0 by assumption.
        apply Hno. now exists k0, m. }
    unfold Hook.wake. rewrite settled_set_call, Es.
    destruct x as [url| |j|m].
    + now destruct (Hx url).
    + cbn [fst]. split; [rewrite settled_set_call; congruence|].
      intros _. split; [apply Hno'; discriminate|].
      intros (a & b & d' & Ha & Hb & Hd').
      destruct k; simpl in Ha, Hb, Hd'; discriminate.
    + destruct (Hook.hNSA (Hook.set_call k (Hook.Fulfilled j) c)) as [| |a|] eqn:E1;
        try (cbn [fst]; split; [rewrite settled_set_call; congruence|];
             intros _; split; [apply Hno'; discriminate|];
             intros (a' & b' & d' & Ha & Hb & Hd'); congruence).
      destruct (Hook.hSA (Hook.set_call k (Hook.Fulfilled j) c)) as [| |b|] eqn:E2;
        try (cbn [fst]; split; [rewrite settled_set_call; congruence|];
             intros _; split; [apply Hno'; discriminate|];
             intros (a' & b' & d' & Ha & Hb & Hd'); congruence).
      destruct (Hook.coreSA (Hook.set_call k (Hook.Fulfilled j) c)) as [| |d'|] eqn:E3;
        try (cbn [fst]; split; [rewrite settled_set_call; congruence|];
             intros _; split; [apply Hno'; discriminate|];
             intros (a' & b' & d'' & Ha & Hb & Hd'); congruence).
      cbn [fst]. split; [|discriminate]. intros _. right.
      exists a, b, d'. cbn [Hook.settle Hook.hNSA Hook.hSA Hook.coreSA].
      now repeat split.
    + cbn [fst]. split; [|discriminate]. intros _. left.
      exists k, m. now destruct k.
Qed.

Lemma all_joined_step (w : Hook.World) (e : Hook.Event) :
  Join.all_joined w -> Join.all_joined (step w e).
Proof.
  intros Hw. destruct e as [y| |n k d]; unfold Hook.step.
  - destruct (match Hook.deps w with
              | Some y' => (y =? y')%Z
              | None => false
              end); [exact Hw|].
    intros m c Hm. cbn [Hook.cycles] in Hm.
    apply nth_error_In, in_app_or in Hm. destruct Hm as [Hin | [<- | []]].
    + apply In_nth_error in Hin. destruct Hin as [i Hi].
      destruct (Nat.eq_dec (Hook.latest w) i) as [<-|Hne].
      * rewrite update_nth_same in Hi.
        destruct (nth_error (Hook.cycles w) (Hook.latest w)) as [c0|] eqn:E;
          [|discriminate].
        injection Hi as <-. apply joined_cancel. now apply (Hw _ _ E).
      * rewrite update_nth_other in Hi by assumption. now apply (Hw i c).
    + apply joined_start.
  - intros m c Hm. cbn [Hook.cycles] in Hm.
    destruct (Nat.eq_dec (Hook.latest w) m) as [<-|Hne].
    + rewrite update_nth_same in Hm.
      destruct (nth_error (Hook.cycles w) (Hook.latest w)) as [c0|] eqn:E;
        [|discriminate].
      injection Hm as <-. apply joined_cancel. now apply (Hw _ _ E).
    + rewrite update_nth_other in Hm by assumption. now apply (Hw m c).
  - destruct (nth_error (Hook.cycles w) n) as [c|] eqn:En; [|exact Hw].
    destruct (Hook.deliver (Hook.call k c) d) as [x|] eqn:Ed; [|exact Hw].
    pose proof (wake_joined c k d x (Hook.state w) (Hw n c En) Ed) as Hj.
    destruct (wake (Hook.set_call k x c) x (Hook.state w)) as [c' st].
    cbn [fst] in Hj. intros m c1 Hm. cbn [Hook.cycles] in Hm.
    destruct (Nat.eq_dec n m) as [<-|Hne].
    + rewrite update_nth_same, En in Hm. now injection Hm as <-.
    + rewrite update_nth_other in Hm by assumption. now apply (Hw m c1).
Qed.

Lemma all_joined_run (es : list Hook.Event) (w : Hook.World) :
  Join.all_joined w -> Join.all_joined (run w es).
Proof.
  revert w. induction es as [|e es IH]; intros w Hw; [exact Hw|].
  simpl. apply IH. now apply all_joined_step.
Qed.

Lemma all_joined_init : Join.all_joined Hook.init.
Proof. intros [|n] c H; discriminate. Qed.
End HookMore.

(** X12: whatever has happened, the chart card shows exactly one of its
    three panels: the loading notice, the error message, or the chart (an
    error with an empty message shows the chart, which then has no rows). *)
Theorem exactly_one_panel
  (Number_toString : float -> string) (Date_parse_other : string -> Date.Date)
  (es : list Hook.Event) :
  View.panels
    (Hook.state (Hook.run Number_toString Date_parse_other Hook.init es))
  = View.mkPanels true false false \/
  View.panels
    (Hook.state (Hook.run Number_toString Date_parse_other Hook.init es))
  = View.mkPanels false true false \/
  View.panels
    (Hook.state (Hook.run Number_toString Date_parse_other Hook.init es))
  = View.mkPanels false false true.
Proof.
  destruct (run_shaped Number_toString Date_parse_other es Hook.init)
    as [-> | [[m ->] | [d ->]]].
  - now left.
  - now left.
  - destruct m as [|a s]; [right; right | right; left]; reflexivity.
  - right. right. reflexivity.
Qed.

(** X13: while a cycle is the one in place (started last, not cancelled)
    and its three calls are fulfilled, the state is ready and holds the
    parse of each body in its own slot: [headlineNSA], [headlineSA],
    [coreSA]. *)
Theorem all_success_is_ready
  (Number_toString : float -> string) (Date_parse_other : string -> Date.Date)
  (es : list Hook.Event) (c : Hook.Cycle) (a b d : Json.json) :
  nth_error
    (Hook.cycles (Hook.run Number_toString Date_parse_other Hook.init es))
    (Hook.latest (Hook.run Number_toString Date_parse_other Hook.init es))
  = Some c ->
  Hook.cancelled c = false ->
  Hook.hNSA c = Hook.Fulfilled a ->
  Hook.hSA c = Hook.Fulfilled b ->
  Hook.coreSA c = Hook.Fulfilled d ->
  Hook.state (Hook.run Number_toString Date_parse_other Hook.init es)
  = Hook.mkState false None
      (Some (Chart.mkData
               (Parser.parseBlsSeries Number_toString Date_parse_other a)
               (Parser.parseBlsSeries Number_toString Date_parse_other b)
               (Parser.parseBlsSeries Number_toString Date_parse_other d))).
Proof.
  intros Hc Hlive Ha Hb Hd.
  destruct (invariant_run Number_toString Date_parse_other es Hook.init
              (invariant_init Number_toString Date_parse_other))
    as [_ Hlast].
  pose proof (all_joined_run Number_toString Date_parse_other es Hook.init
                all_joined_init _ _ Hc) as [_ Hun].
  destruct (Hlast c Hc) as [Hcan | [Hfl | [Hfa | Hre]]].
  - congruence.
  - destruct Hfl as (Hs & _ & _). destruct (Hun Hs) as [_ Hnot].
    exfalso. apply Hnot. now exists a, b, d.
  - destruct Hfa as (_ & k & m & Hk & _).
    destruct k; simpl in Hk; congruence.
  - destruct Hre as (_ & a' & b' & d' & Ha' & Hb' & Hd' & ->).
    unfold Hook.parseBlsSeries. congruence.
Qed.

Lemma all_success_is_ready_witness :
  Hook.state
    (Hook.run Sample.Number_toString Sample.Date_parse_other Hook.init
       (Sample.nearly_done
        ++ [Hook.Deliver 0 Hook.CORE_SA (Hook.Body (Json.Obj []))]))
  = Hook.mkState false None
      (Some (Chart.mkData
               (Parser.parseBlsSeries Sample.Number_toString
                  Sample.Date_parse_other Sample.january)
               (Parser.parseBlsSeries Sample.Number_toString
                  Sample.Date_parse_other Sample.january)
               (Parser.parseBlsSeries Sample.Number_toString
                  Sample.Date_parse_other (Json.Obj [])))).
Proof.
  apply (all_success_is_ready Sample.Number_toString Sample.Date_parse_other
           (Sample.nearly_done
            ++ [Hook.Deliver 0 Hook.CORE_SA (Hook.Body (Json.Obj []))])
           (Hook.mkCycle false (Hook.Fulfilled Sample.january)
              (Hook.Fulfilled Sample.january) (Hook.Fulfilled (Json.Obj []))
              true)).
  - reflexivity.
  - reflexivity.
  - reflexivity.
  - reflexivity.
  - reflexivity.
Defined.

(** X14: while a cycle is the one in place, none of its calls has been
    rejected and one of them is still waiting (for its response or for its
    body), the state is the loading state. *)
Theorem pending_is_loading
  (Number_toString : float -> string) (Date_parse_other : string -> Date.Date)
  (es : list Hook.Event) (c : Hook.Cycle) (k : Hook.SeriesKey) :
  nth_error
    (Hook.cycles (Hook.run Number_toString Date_parse_other Hook.init es))
    (Hook.latest (Hook.run Number_toString Date_parse_other Hook.init es))
  = Some c ->
  Hook.cancelled c = false ->
  (forall k' m, Hook.call k' c <> Hook.Rejected m) ->
  (forall j, Hook.call k c <> Hook.Fulfilled j) ->
  Hook.state (Hook.run Number_toString Date_parse_other Hook.init es)
  = Hook.Loading.
Proof.
  intros Hc Hlive Hno Hk.
  destruct (invariant_run Number_toString Date_parse_other es Hook.init
              (invariant_init Number_toString Date_parse_other))
    as [_ Hlast].
  destruct (Hlast c Hc) as [Hcan | [Hfl | [Hfa | Hre]]].
  - congruence.
  - now destruct Hfl as (_ & _ & ->).
  - destruct Hfa as (_ & k' & m & Hk' & _). now destruct (Hno k' m).
  - destruct Hre as (_ & a & b & d & Ha & Hb & Hd & _).
    exfalso. destruct k; simpl in Hk.
    + now apply (Hk a).
    + now apply (Hk b).
    + now apply (Hk d).
Qed.

Lemma pending_is_loading_witness :
  Hook.state
    (Hook.run Sample.Number_toString Sample.Date_parse_other Hook.init
       Sample.nearly_done)
  = Hook.Loading.
Proof.
  apply (pending_is_loading Sample.Number_toString Sample.Date_parse_other
           Sample.nearly_done
           (Hook.mkCycle false (Hook.Fulfilled Sample.january)
              (Hook.Fulfilled Sample.january) Hook.AwaitingBody false)
           Hook.CORE_SA).
  - reflexivity.
  - reflexivity.
  - intros [] m; discriminate.
  - discriminate.
Defined.

(** X15: once [Promise.all] of the cycle in place has settled, by the
    first rejection or by the third fulfilment, no later delivery changes
    the state: a rejection that comes after another does not replace its
    message, and the state stays until the start year changes. *)
Theorem settled_state_is_final
  (Number_toString : float -> string) (Date_parse_other : string -> Date.Date)
  (es0 es : list Hook.Event) (c : Hook.Cycle) :
  nth_error
    (Hook.cycles (Hook.run Number_toString Date_parse_other Hook.init es0))
    (Hook.latest (Hook.run Number_toString Date_parse_other Hook.init es0))
  = Some c ->
  Hook.settled c = true ->
  Forall Join.is_delivery es ->
  Hook.state
    (Hook.run Number_toString Date_parse_other
       (Hook.run Number_toString Date_parse_other Hook.init es0) es)
  = Hook.state (Hook.run Number_toString Date_parse_other Hook.init es0).
Proof.
  intros Hc Hs Hes. apply deliveries_quiet; [|exact Hes].
  destruct (invariant_run Number_toString Date_parse_other es0 Hook.init
              (invariant_init Number_toString Date_parse_other))
    as [Hold _].
  intros n c1 Hn.
  destruct (Nat.eq_dec n
              (Hook.latest
                 (Hook.run Number_toString Date_parse_other Hook.init es0)))
    as [->|Hne].
  - right. congruence.
  - left. now apply (Hold n c1).
Qed.

Lemma settled_state_is_final_witness :
  Hook.state
    (Hook.run Sample.Number_toString Sample.Date_parse_other
       (Hook.run Sample.Number_toString Sample.Date_parse_other Hook.init
          [Hook.Render 2015;
           Hook.Deliver 0 Hook.CORE_SA (Hook.Response 503)])
       [Hook.Deliver 0 Hook.HEADLINE_NSA (Hook.NetworkFault "Failed to fetch");
        Hook.Deliver 0 Hook.HEADLINE_SA (Hook.Response 200);
        Hook.Deliver 0 Hook.HEADLINE_SA (Hook.Body Sample.january)])
  = Hook.state
      (Hook.run Sample.Number_toString Sample.Date_parse_other Hook.init
         [Hook.Render 2015;
          Hook.Deliver 0 Hook.CORE_SA (Hook.Response 503)]).
Proof.
  apply (settled_state_is_final Sample.Number_toString Sample.Date_parse_other
           [Hook.Render 2015;
            Hook.Deliver 0 Hook.CORE_SA (Hook.Response 503)]
           [Hook.Deliver 0 Hook.HEADLINE_NSA (Hook.NetworkFault "Failed to fetch");
            Hook.Deliver 0 Hook.HEADLINE_SA (Hook.Response 200);
            Hook.Deliver 0 Hook.HEADLINE_SA (Hook.Body Sample.january)]
           (Hook.mkCycle false
              (Hook.fetchSeries (Hook.SERIES Hook.HEADLINE_NSA) 2015)
              (Hook.fetchSeries (Hook.SERIES Hook.HEADLINE_SA) 2015)
              (Hook.Rejected "BLS fetch failed (503)") true)).
  - reflexivity.
  - reflexivity.
  - repeat constructor.
Defined.

(** X16: after the component is unmounted, no delivery changes the state:
    a fetch that completes later, by success or by failure, is dropped. *)
Theorem unmounted_state_is_final
  (Number_toString : float -> string) (Date_parse_other : string -> Date.Date)
  (es0 es : list Hook.Event) :
  Forall Join.is_delivery es ->
  Hook.state
    (Hook.run Number_toString Date_parse_other
       (Hook.step Number_toString Date_parse_other
          (Hook.run Number_toString Date_parse_other Hook.init es0)
          Hook.Unmount)
       es)
  = Hook.state (Hook.run Number_toString Date_parse_other Hook.init es0).
Proof.
  intros Hes. rewrite deliveries_quiet; [reflexivity| |exact Hes].
  destruct (invariant_run Number_toString Date_parse_other es0 Hook.init
              (invariant_init Number_toString Date_parse_other))
    as [Hold _].
  intros n c Hn. left. unfold Hook.step in Hn. cbn [Hook.cycles] in Hn.
  destruct (Nat.eq_dec
              (Hook.latest
                 (Hook.run Number_toString Date_parse_other Hook.init es0)) n)
    as [<-|Hne].
  - rewrite update_nth_same in Hn.
    destruct (nth_error _ _); [|discriminate]. now injection Hn as <-.
  - rewrite update_nth_other in Hn by assumption.
    apply (Hold n c Hn). congruence.
Qed.

Lemma unmounted_state_is_final_witness :
  Hook.state
    (Hook.run Sample.Number_toString Sample.Date_parse_other
       (Hook.step Sample.Number_toString Sample.Date_parse_other
          (Hook.run Sample.Number_toString Sample.Date_parse_other Hook.init
             Sample.nearly_done)
          Hook.Unmount)
       [Hook.Deliver 0 Hook.CORE_SA (Hook.Body Sample.january)])
  = Hook.state
      (Hook.run Sample.Number_toString Sample.Date_parse_other Hook.init
         Sample.nearly_done).
Proof.
  apply (unmounted_state_is_final Sample.Number_toString
           Sample.Date_parse_other Sample.nearly_done
           [Hook.Deliver 0 Hook.CORE_SA (Hook.Body Sample.january)]).
  repeat constructor.
Defined.

(** X17: a render with the start year the effect in place ran with starts
    nothing: after a render with year [y], a second one leaves the state,
    the cycles and their calls as they are. *)
Theorem render_same_year_is_idle
  (Number_toString : float -> string) (Date_parse_other : string -> Date.Date)
  (w : Hook.World) (y : Z) :
  Hook.step Number_toString Date_parse_other
    (Hook.step Number_toString Date_parse_other w (Hook.Render y))
    (Hook.Render y)
  = Hook.step Number_toString Date_parse_other w (Hook.Render y).
Proof.
  unfold Hook.step.
  destruct (match Hook.deps w with
            | Some y' => (y =? y')%Z
            | None => false
            end) eqn:E.
  - now rewrite E.
  - cbn [Hook.deps]. now rewrite Z.eqb_refl.
Qed.

(** ** Countdown *)

(** X18: for a valid target date the countdown splits the whole seconds
    that remain, [max(0, target - now) / 1000] rounded down, into days,
    hours below 24, minutes below 60 and seconds below 60, none negative. *)
Theorem countdown_splits_remaining_seconds (t now : Z) :
  exists d h m s,
    Countdown.days (Countdown.useCountdown (Some t) now) = Some d /\
    Countdown.hours (Countdown.useCountdown (Some t) now) = Some h /\
    Countdown.minutes (Countdown.useCountdown (Some t) now) = Some m /\
    Countdown.seconds (Countdown.useCountdown (Some t) now) = Some s /\
    (d * 86400 + h * 3600 + m * 60 + s = Z.max 0 (t - now) / 1000)%Z /\
    (0 <= d)%Z /\ (0 <= h < 24)%Z /\ (0 <= m < 60)%Z /\ (0 <= s < 60)%Z.
Proof.
  unfold Countdown.useCountdown, Countdown.diff. cbn.
  do 4 eexists. repeat (split; [reflexivity|]).
  assert (H : (0 <= Z.max 0 (t - now))%Z) by lia.
  revert H. generalize (Z.max 0 (t - now)). intros x Hx.
  Z.div_mod_to_equations. lia.
Qed.

(** X19: the countdown has reached its target exactly when the target
    date is valid and not after the current time; its four fields are then
    zero.  With an invalid target it is never reached. *)
Theorem countdown_reached (target : Date.Date) (now : Z) :
  (Countdown.reached (Countdown.useCountdown target now) = true <->
   exists t, target = Some t /\ (t <= now)%Z) /\
  (Countdown.reached (Countdown.useCountdown target now) = true ->
   Countdown.days (Countdown.useCountdown target now) = Some 0%Z /\
   Countdown.hours (Countdown.useCountdown target now) = Some 0%Z /\
   Countdown.minutes (Countdown.useCountdown target now) = Some 0%Z /\
   Countdown.seconds (Countdown.useCountdown target now) = Some 0%Z).
Proof.
  unfold Countdown.useCountdown, Countdown.diff.
  destruct target as [t|]; cbn.
  - split.
    + rewrite Z.eqb_eq. split.
      * intros H. exists t. split; [reflexivity|lia].
      * intros (t' & Ht & Hle). injection Ht as <-. lia.
    + rewrite Z.eqb_eq. intros ->. repeat split.
  - split; [|discriminate]. split; [discriminate|].
    intros (t & Ht & _). discriminate.
Qed.

(** ** From the payload to the rows *)

Section RowLabels.
Variable LocalTZA : Z -> Z.

Lemma mapi_from_map {A B C : Type} (f : A -> Z -> B) (g : B -> C) (h : A -> C)
  (l : list A) (i : Z) :
  (forall x j, g (f x j) = h x) ->
  map g (Js.mapi_from f i l) = map h l.
Proof.
  intros H. revert i. induction l as [|x r IH]; intros i; simpl;
    [reflexivity|].
  now rewrite H, IH.
Qed.

Lemma chartData_dates (d : Chart.Data) :
  map Chart.date (Chart.chartData LocalTZA (Some d))
  = map (fun p => Chart.label LocalTZA (Parser.date p)) (Chart.headlineNSA d).
Proof.
  unfold Chart.chartData, Js.mapi. now apply mapi_from_map.
Qed.

Lemma labels_east (months : list (Z * Z)) :
  (forall t, 0 <= LocalTZA t < Date.msPerDay)%Z ->
  Forall (fun ym => 1 <= snd ym <= 12)%Z months ->
  map (Chart.label LocalTZA) (map Shape.month_date months)
  = map Month.label months.
Proof.
  intros Htz. induction 1 as [|[y m] r Hm _ IH]; simpl; [reflexivity|].
  rewrite IH. f_equal.
  apply (label_east_of_utc_aux LocalTZA y m Hm (Htz _)).
Qed.
End RowLabels.

(** X20: for a headline-NSA payload of well-formed tuples naming pairwise
    distinct months, in any order, and a local time that is UTC or ahead of
    it by less than a day, the rows of the chart are labelled with the
    payload's months, ["YYYY-MM"], in strictly ascending order. *)
Theorem chart_labels_ascending
  (Number_toString : float -> string) (Date_parse_other : string -> Date.Date)
  (LocalTZA : Z -> Z) (json : Json.json) (l : list Json.json)
  (sa core : list Parser.Point) :
  Shape.series_data json = Some l ->
  Forall (fun d => Shape.well_formed d = true) l ->
  NoDup (map Shape.calendar_month l) ->
  (forall t, 0 <= LocalTZA t < Date.msPerDay)%Z ->
  exists months,
    Permutation (map Shape.calendar_month l) (map Some months) /\
    StronglySorted Shape.month_lt months /\
    map Chart.date
      (Chart.chartData LocalTZA
         (Some (Chart.mkData
                  (Parser.parseBlsSeries Number_toString Date_parse_other json)
                  sa core)))
    = map Month.label months.
Proof.
  intros H Hl Hnd Htz.
  destruct (parse_sorted_months Number_toString Date_parse_other json l
              H Hl Hnd) as (months & Hperm & Hsorted & Hdates).
  exists months. split; [exact Hperm|]. split; [exact Hsorted|].
  rewrite chartData_dates. cbn [Chart.headlineNSA].
  rewrite <- (map_map Parser.date (Chart.label LocalTZA)), Hdates.
  apply labels_east; [exact Htz|].
  apply Forall_forall. intros ym Hym.
  assert (Hin : In (Some ym) (map Shape.calendar_month l)).
  { apply (Permutation_in _ (Permutation_sym Hperm)). now apply in_map. }
  apply in_map_iff in Hin. destruct Hin as (d & Hd & _).
  now apply calendar_month_bounds with d.
Qed.

Lemma chart_labels_ascending_witness :
  exists months,
    Permutation
      (map Shape.calendar_month
         [Sample.tuple "2023" "M02" "300.8"; Sample.tuple "2022" "M12" "296.7";
          Sample.tuple "2023" "M01" "299.1"])
      (map Some months) /\
    StronglySorted Shape.month_lt months /\
    map Chart.date
      (Chart.chartData (fun _ => 0%Z)
         (Some (Chart.mkData
                  (Parser.parseBlsSeries Sample.Number_toString
                     Sample.Date_parse_other
                     (Sample.payload
                        [Sample.tuple "2023" "M02" "300.8";
                         Sample.tuple "2022" "M12" "296.7";
                         Sample.tuple "2023" "M01" "299.1"]))
                  [] [])))
    = map Month.label months.
Proof.
  apply (chart_labels_ascending Sample.Number_toString Sample.Date_parse_other
           (fun _ => 0%Z)).
  - reflexivity.
  - repeat constructor.
  - repeat constructor; simpl; intuition discriminate.
  - intros t. unfold Date.msPerDay. lia.
Defined.

(** The labels of the rows above. *)
Example chart_labels_example :
  map Chart.date
    (Chart.chartData (fun _ => 0%Z)
       (Some (Chart.mkData
                (Parser.parseBlsSeries Sample.Number_toString
                   Sample.Date_parse_other
                   (Sample.payload
                      [Sample.tuple "2023" "M02" "300.8";
                       Sample.tuple "2022" "M12" "296.7";
                       Sample.tuple "2023" "M01" "299.1"]))
                [] [])))
  = ["2022-12"; "2023-01"; "2023-02"]%string.
Proof. reflexivity. Qed.

(** ** Acquisition: one fetch fails *)

Section OneFailure.
Variable Number_toString : float -> string.
Variable Date_parse_other : string -> Date.Date.

Local Abbreviation step := (Hook.step Number_toString Date_parse_other).
Local Abbreviation run := (Hook.run Number_toString Date_parse_other).
Local Abbreviation wake := (Hook.wake Number_toString Date_parse_other).
Local Abbreviation invariant :=
  (Inv.invariant Number_toString Date_parse_other).









Lemma others_are_deliveries (n : nat) (k : Hook.SeriesKey)
  (es : list Hook.Event) :
  Forall (Fault.others_succeed n k) es -> Forall Join.is_delivery es.
Proof.
  intros H. eapply Forall_impl; [|exact H].
  intros [y| |n' k' d]; simpl; auto.
Qed.

End OneFailure.



(** A network fault on the first fetch, the other two succeeding around
    it: the state carries the fault's message. *)
Example network_fault_state :
  Hook.state
    (Hook.run Sample.Number_toString Sample.Date_parse_other Hook.init
       [Hook.Render 2015;
        Hook.Deliver 0 Hook.HEADLINE_SA (Hook.Response 200);
        Hook.Deliver 0 Hook.HEADLINE_NSA (Hook.NetworkFault "Failed to fetch");
        Hook.Deliver 0 Hook.CORE_SA (Hook.Response 200);
        Hook.Deliver 0 Hook.HEADLINE_SA (Hook.Body Sample.january);
        Hook.Deliver 0 Hook.CORE_SA (Hook.Body Sample.january)])
  = Hook.mkState false (Some "Failed to fetch"%string) None.
Proof. reflexivity. Qed.
